(** * dry/pkg/config: the struct-tag driven configuration manager

    A shallow embedding of package [config]: the reflective walk
    [parseStructToFlags], [InitFlags], [ReadFromFile], [Unmarshal], [New]
    and the decode hook [stringSliceToStringMapHookFunc] of hooks.go.
    config.go is taken in its revision with the decode hook, the numeric
    kinds and the environment prefix; of the revision without them only
    [Unmarshal] is kept, in [config_nohook].

    Go strings are byte sequences and are modelled by [string], a
    sequence of [ascii] bytes.  Go maps are [gmap]s.  A panic is an
    explicit outcome of [Exec]; a Go [error] result is an [option error],
    [None] being nil.  The libraries the package drives (reflect, strings,
    pflag, viper, mapstructure) are modelled as far as the package uses
    them, each in a module of its name. *)

From Stdlib Require Import String Ascii List Bool Arith ZArith Lia DecimalString.
From stdpp Require Import base option list strings gmap fin_maps.

Local Open Scope string_scope.

(** ** Outcomes: a value or a panic *)

Inductive Exec (A : Type) : Type :=
| Ok (a : A)
| Panic (msg : string).
Arguments Ok {A} a.
Arguments Panic {A} msg.

Definition bindE {A B} (m : Exec A) (k : A -> Exec B) : Exec B :=
  match m with
  | Ok a => k a
  | Panic msg => Panic msg
  end.

Notation "'let*' x ':=' m 'in' k" := (bindE m (fun x => k))
  (at level 10, x name, m at level 100, k at level 200).

Definition panics {A} (m : Exec A) : Prop :=
  match m with Panic _ => True | Ok _ => False end.

(** A Go [error] value, identified with its message. *)
Definition error := string.

(** ** package reflect *)

Module reflect.

(** [reflect.Kind], in the order of the Go declaration. *)
Inductive Kind :=
| Invalid | Bool | Int | Int8 | Int16 | Int32 | Int64
| Uint | Uint8 | Uint16 | Uint32 | Uint64 | Uintptr
| Float32 | Float64 | Complex64 | Complex128
| Array | Chan | Func | Interface | Map | Pointer | Slice
| String | Struct | UnsafePointer.

#[global] Instance Kind_eq_dec : EqDecision Kind.
Proof. solve_decision. Defined.

(** [%v] of a kind, as [Kind.String] prints it. *)
Definition kindName (k : Kind) : string :=
  match k with
  | Invalid => "invalid" | Bool => "bool" | Int => "int" | Int8 => "int8"
  | Int16 => "int16" | Int32 => "int32" | Int64 => "int64"
  | Uint => "uint" | Uint8 => "uint8" | Uint16 => "uint16"
  | Uint32 => "uint32" | Uint64 => "uint64" | Uintptr => "uintptr"
  | Float32 => "float32" | Float64 => "float64"
  | Complex64 => "complex64" | Complex128 => "complex128"
  | Array => "array" | Chan => "chan" | Func => "func"
  | Interface => "interface" | Map => "map" | Pointer => "ptr"
  | Slice => "slice" | String => "string" | Struct => "struct"
  | UnsafePointer => "unsafe.Pointer"
  end.

(** The types without components. *)
Inductive Basic :=
| BBool | BInt | BInt8 | BInt16 | BInt32 | BInt64
| BUint | BUint8 | BUint16 | BUint32 | BUint64 | BUintptr
| BFloat32 | BFloat64 | BComplex64 | BComplex128
| BString | BUnsafePointer.

Definition basicKind (b : Basic) : Kind :=
  match b with
  | BBool => Bool | BInt => Int | BInt8 => Int8 | BInt16 => Int16
  | BInt32 => Int32 | BInt64 => Int64
  | BUint => Uint | BUint8 => Uint8 | BUint16 => Uint16
  | BUint32 => Uint32 | BUint64 => Uint64 | BUintptr => Uintptr
  | BFloat32 => Float32 | BFloat64 => Float64
  | BComplex64 => Complex64 | BComplex128 => Complex128
  | BString => String | BUnsafePointer => UnsafePointer
  end.

(** A struct tag, as the key/value pairs [StructTag.Get] reads. *)
Definition StructTag := list (string * string).

(** [reflect.Type] and [reflect.StructField]. *)
Inductive Type_ :=
| TBasic (b : Basic)
| TArray (len : nat) (elem : Type_)
| TChan (elem : Type_)
| TFunc
| TInterface
| TMap (key elem : Type_)
| TPointer (elem : Type_)
| TSlice (elem : Type_)
| TStruct (fields : list StructField)
with StructField :=
| mkField (Name : string) (Type' : Type_) (Tag : StructTag).

Definition fieldType (f : StructField) : Type_ :=
  match f with mkField _ t _ => t end.
Definition fieldTag (f : StructField) : StructTag :=
  match f with mkField _ _ tg => tg end.

(** [Type.Kind]. *)
Definition kind (t : Type_) : Kind :=
  match t with
  | TBasic b => basicKind b
  | TArray _ _ => Array
  | TChan _ => Chan
  | TFunc => Func
  | TInterface => Interface
  | TMap _ _ => Map
  | TPointer _ => Pointer
  | TSlice _ => Slice
  | TStruct _ => Struct
  end.

(** [Type.Elem]: panics unless the kind is Array, Chan, Map, Pointer or
    Slice. *)
Definition elem (t : Type_) : Exec Type_ :=
  match t with
  | TArray _ e | TChan e | TMap _ e | TPointer e | TSlice e => Ok e
  | _ => Panic ("reflect: Elem of invalid type")
  end.

(** [StructTag.Get]: the value of the first pair with the key, or the
    empty string. *)
Fixpoint tagGet (tg : StructTag) (key : string) : string :=
  match tg with
  | [] => ""
  | (k, v) :: rest => if String.eqb k key then v else tagGet rest key
  end.

End reflect.

(** ** package strings *)

Module strings.

Definition eqChar : ascii := "="%char.

(** [strings.Index(s, "=")] as [IndexByte]: the position of the first
    occurrence, or [None] for Go's [-1]. *)
Fixpoint IndexByte (s : string) (c : ascii) : option nat :=
  match s with
  | EmptyString => None
  | String a rest =>
      if Ascii.eqb a c then Some 0
      else match IndexByte rest c with
           | Some i => Some (S i)
           | None => None
           end
  end.

(** The slices [s[:m]] and [s[m:]]. *)
Definition sliceTo (s : string) (m : nat) : string := substring 0 m s.
Definition sliceFrom (s : string) (m : nat) : string :=
  substring m (String.length s - m) s.

(** [strings.SplitN(s, "=", 2)]: [genSplit] with [n = 2] runs its loop
    at most once, cutting at the first separator, and stores the rest
    of [s] as the last piece. *)
Definition SplitN_eq_2 (s : string) : list string :=
  match IndexByte s eqChar with
  | None => [s]
  | Some m => [sliceTo s m; sliceFrom s (m + 1)]
  end.

Fixpoint mapBytes (f : ascii -> ascii) (s : string) : string :=
  match s with
  | EmptyString => EmptyString
  | String a rest => String (f a) (mapBytes f rest)
  end.

Definition inRange (lo hi : nat) (a : ascii) : bool :=
  Nat.leb lo (nat_of_ascii a) && Nat.leb (nat_of_ascii a) hi.

(** [ToUpper] and [ToLower] on texts of ASCII characters: the letters are
    mapped and every other byte is kept.  On a text with characters
    outside ASCII Go maps by the Unicode tables, which are not modelled:
    what is proved with these two functions is proved for ASCII texts. *)
Definition upperByte (a : ascii) : ascii :=
  if inRange 97 122 a then ascii_of_nat (nat_of_ascii a - 32) else a.
Definition lowerByte (a : ascii) : ascii :=
  if inRange 65 90 a then ascii_of_nat (nat_of_ascii a + 32) else a.
Definition ToUpper : string -> string := mapBytes upperByte.
Definition ToLower : string -> string := mapBytes lowerByte.

(** [strings.NewReplacer] on single-byte arguments builds a byte
    replacer; of two pairs for one byte the first stands. *)
Definition Replacer := list (ascii * ascii).

Fixpoint replaceByte (r : Replacer) (a : ascii) : ascii :=
  match r with
  | [] => a
  | (o, n) :: rest => if Ascii.eqb a o then n else replaceByte rest a
  end.

Definition Replace (r : Replacer) : string -> string :=
  mapBytes (replaceByte r).

End strings.

(** ** Dynamic values ([interface{}]) *)

(** The values the decode step hands to a hook, each with its dynamic
    type.  [AStrings] has dynamic type [[]string] and [AStringMap] has
    [map[string]string]; [AOther] stands for a value of any other dynamic
    type, whose contents the hook never inspects. *)
Inductive any :=
| ANil
| AString (s : string)
| ABool (b : bool)
| AInt (z : Z)
| AStrings (sl : list string)
| AStringMap (m : gmap string string)
| AOther (t : reflect.Type_).

(** ** hooks.go *)

Module hooks.
Import reflect.

(** Go's short-circuit [||] when the right operand may panic. *)
Definition orElse (a : bool) (b : Exec bool) : Exec bool :=
  if a then Ok true else b.

Definition kindIsNot (k k' : Kind) : bool := negb (bool_decide (k = k')).

(** The guard of the hook:
    [f.Kind() != reflect.Slice || f.Elem().Kind() != reflect.String ||
     t.Kind() != reflect.Map || t.Elem().Kind() != reflect.String]. *)
Definition notSliceToMap (f t : Type_) : Exec bool :=
  orElse (kindIsNot (kind f) Slice)
    (let* fe := elem f in
     orElse (kindIsNot (kind fe) String)
       (orElse (kindIsNot (kind t) Map)
          (let* te := elem t in
           Ok (kindIsNot (kind te) String)))).

Definition invalidFormat (s : string) : error :=
  "Invalid format for input " ++ s.

(** The [for _, s := range sl] loop over the map built so far. *)
Fixpoint fillMap (sl : list string) (m : gmap string string)
  : any * option error :=
  match sl with
  | [] => (AStringMap m, None)
  | s :: rest =>
      match strings.SplitN_eq_2 s with
      | [p0; p1] => fillMap rest (<[p0 := p1]> m)
      | _ => (* len(p) != 2 *) (ANil, Some (invalidFormat s))
      end
  end.

(** [stringSliceToStringMapHookFunc]. The type assertion
    [data.([]string)] panics on a value of another dynamic type. *)
Definition stringSliceToStringMapHookFunc (f t : Type_) (data : any)
  : Exec (any * option error) :=
  let* skip := notSliceToMap f t in
  if (skip : bool) then Ok (data, None)
  else match data with
       | AStrings sl => Ok (fillMap sl ∅)
       | _ => Panic "interface conversion: interface {} is not []string"
       end.

End hooks.

(** ** package pflag

    A flag set is modelled by the ordered sequence of the flags defined on
    it.  A definition goes through [AddFlag], which panics on a name that
    is already defined, on a shorthand of more than one character and on
    a shorthand that is already in use. *)

Module pflag.

Inductive Value :=
| stringValue (s : string)
| boolValue (b : bool)
| uintValue (n : N)
| uint64Value (n : N)
| intValue (z : Z)
| int64Value (z : Z)
| float64Value (bits : N)   (* the IEEE-754 bit pattern; 0 is +0.0 *)
| stringSliceValue (sl : list string).

Record Flag := mkFlag {
  Name : string;
  Shorthand : string;
  Usage : string;
  Val : Value;
  Changed : bool
}.

Record FlagSet := mkFlagSet {
  name : string;
  formal : list Flag
}.

Definition NewFlagSet (nm : string) : FlagSet := mkFlagSet nm [].

(** [%q] of a text that holds nothing to escape. *)
Definition quote (s : string) : string :=
  String (ascii_of_nat 34) s ++ String (ascii_of_nat 34) "".

(** The checks of [AddFlag]: the message it panics with, if any.  The
    name is looked up first; an empty shorthand ends the checks. *)
Definition rejects (fs : FlagSet) (nm short : string) : option string :=
  match List.find (fun f => String.eqb (Name f) nm) (formal fs) with
  | Some _ => Some (name fs ++ " flag redefined: " ++ nm)
  | None =>
      if String.eqb short "" then None
      else if Nat.ltb 1 (String.length short) then
        Some (quote short ++ " shorthand is more than one ASCII character")
      else
        match List.find (fun f => String.eqb (Shorthand f) short) (formal fs) with
        | Some used =>
            Some ("unable to redefine '" ++ short ++ "' shorthand in "
                  ++ quote (name fs) ++ " flagset: it's already used for "
                  ++ quote (Name used) ++ " flag")
        | None => None
        end
  end.

(** [VarPF] and [AddFlag]: the flag is defined with its default as
    current value, unless [AddFlag] panics. *)
Definition define (nm short : string) (v : Value) (usage : string)
    (fs : FlagSet) : Exec FlagSet :=
  match rejects fs nm short with
  | Some msg => Panic msg
  | None => Ok (mkFlagSet (name fs) (formal fs ++ [mkFlag nm short usage v false]))
  end.

Definition StringP nm short (value : string) usage :=
  define nm short (stringValue value) usage.
Definition BoolP nm short (value : bool) usage :=
  define nm short (boolValue value) usage.
Definition UintP nm short (value : N) usage :=
  define nm short (uintValue value) usage.
Definition Uint64P nm short (value : N) usage :=
  define nm short (uint64Value value) usage.
Definition IntP nm short (value : Z) usage :=
  define nm short (intValue value) usage.
Definition Int64P nm short (value : Z) usage :=
  define nm short (int64Value value) usage.
Definition Float64P nm short (value : N) usage :=
  define nm short (float64Value value) usage.
(** A [nil] default is the empty slice. *)
Definition StringSliceP nm short (value : list string) usage :=
  define nm short (stringSliceValue value) usage.

Definition Lookup (fs : FlagSet) (nm : string) : option Flag :=
  List.find (fun f => String.eqb (Name f) nm) (formal fs).

(** [GetString]: the zero value and an error when the flag is not
    defined or is not a string flag. *)
Definition GetString (fs : FlagSet) (nm : string) : string * option error :=
  match Lookup fs nm with
  | None => ("", Some ("flag accessed but not defined: " ++ nm))
  | Some f =>
      match Val f with
      | stringValue s => (s, None)
      | _ => ("", Some ("trying to get string value of flag " ++ nm))
      end
  end.

(** The dynamic value viper reads out of a flag: an int for the signed
    integer flags, a bool, a slice of strings, and for every other flag
    type the text of the value, which for an unsigned integer is its
    decimal form and for a float is a string whose text is left open. *)
Definition toAny (v : Value) : any :=
  match v with
  | stringValue s => AString s
  | boolValue b => ABool b
  | uintValue n | uint64Value n => AString (NilZero.string_of_uint (N.to_uint n))
  | intValue z | int64Value z => AInt z
  | float64Value bits => AOther (reflect.TBasic reflect.BString)
  | stringSliceValue sl => AStrings sl
  end.

End pflag.

(** ** package mapstructure (configuration of a decoder) *)

Module mapstructure.

Definition DecodeHookFunc :=
  reflect.Type_ -> reflect.Type_ -> any -> Exec (any * option error).

(** [Result] is given by the dynamic type of the value passed; [None]
    is a nil interface.  A pointer stands for a pointer to a value: the
    nil pointer of a pointer type, which [NewDecoder] refuses as not
    addressable, has no counterpart here. *)
Record DecoderConfig := mkDecoderConfig {
  TagName : string;
  Result : option reflect.Type_;
  DecodeHook : option DecodeHookFunc
}.

(** [NewDecoder] refuses a result that is not a pointer; the pointers of
    the model point to a value and pass. *)
Definition NewDecoder (c : DecoderConfig) : DecoderConfig * option error :=
  match Result c with
  | Some (reflect.TPointer _) => (c, None)
  | _ => (c, Some "result must be a pointer")
  end.

End mapstructure.

(** ** What lies outside the package

    The process environment, the loader behind viper's config file
    (reading the file and parsing it by its extension, and flattening
    it to the dotted keys, lower-cased, under which viper keeps the
    settings), and the decoding pass of a mapstructure decoder. *)
Record World := mkWorld {
  environ : string -> option string;
  loadConfig : string -> error + gmap string any;
  decode : mapstructure.DecoderConfig -> gmap string any -> Exec (option error)
}.

(** ** package viper

    Keys are kept flat: a dotted name is one key of the settings. *)

Module viper.

Record Viper := mkViper {
  envKeyReplacer : option strings.Replacer;
  allowEmptyEnv : bool;
  envPrefix : string;
  configName : string;
  automaticEnvApplied : bool;
  configFile : string;
  config : gmap string any;
  pflags : gmap string pflag.Flag
}.

Definition New : Viper :=
  mkViper None false "" "config" false "" ∅ ∅.

Definition SetEnvKeyReplacer (r : strings.Replacer) (v : Viper) : Viper :=
  mkViper (Some r) (allowEmptyEnv v) (envPrefix v) (configName v)
    (automaticEnvApplied v) (configFile v) (config v) (pflags v).

Definition AllowEmptyEnv (b : bool) (v : Viper) : Viper :=
  mkViper (envKeyReplacer v) b (envPrefix v) (configName v)
    (automaticEnvApplied v) (configFile v) (config v) (pflags v).

(** An empty prefix is ignored. *)
Definition SetEnvPrefix (p : string) (v : Viper) : Viper :=
  if String.eqb p "" then v
  else mkViper (envKeyReplacer v) (allowEmptyEnv v) p (configName v)
         (automaticEnvApplied v) (configFile v) (config v) (pflags v).

(** An empty name is ignored; a name resets the cached file. *)
Definition SetConfigName (n : string) (v : Viper) : Viper :=
  if String.eqb n "" then v
  else mkViper (envKeyReplacer v) (allowEmptyEnv v) (envPrefix v) n
         (automaticEnvApplied v) "" (config v) (pflags v).

Definition AutomaticEnv (v : Viper) : Viper :=
  mkViper (envKeyReplacer v) (allowEmptyEnv v) (envPrefix v) (configName v)
    true (configFile v) (config v) (pflags v).

Definition SetConfigFile (f : string) (v : Viper) : Viper :=
  if String.eqb f "" then v
  else mkViper (envKeyReplacer v) (allowEmptyEnv v) (envPrefix v)
         (configName v) (automaticEnvApplied v) f (config v) (pflags v).

Definition setConfig (c : gmap string any) (v : Viper) : Viper :=
  mkViper (envKeyReplacer v) (allowEmptyEnv v) (envPrefix v)
    (configName v) (automaticEnvApplied v) (configFile v) c (pflags v).


(** [mergeWithEnvPrefix]. *)
Definition mergeWithEnvPrefix (v : Viper) (key : string) : string :=
  if String.eqb (envPrefix v) "" then strings.ToUpper key
  else strings.ToUpper (envPrefix v ++ "_" ++ key).

(** The name [getEnv] looks up for a merged key. *)
Definition envName (v : Viper) (key : string) : string :=
  match envKeyReplacer v with
  | Some r => strings.Replace r key
  | None => key
  end.

Definition getEnv (w : World) (v : Viper) (key : string) : option string :=
  match environ w (envName v key) with
  | Some val =>
      if allowEmptyEnv v || negb (String.eqb val "") then Some val else None
  | None => None
  end.

(** The environment variable a key resolves from. *)
Definition envVarOf (v : Viper) (key : string) : string :=
  envName v (mergeWithEnvPrefix v (strings.ToLower key)).

(** [find]: a changed flag, then the environment, then the config
    file, then the default of a bound flag. *)
Definition find (w : World) (v : Viper) (lcaseKey : string) : option any :=
  match pflags v !! lcaseKey with
  | Some f =>
      if pflag.Changed f then Some (pflag.toAny (pflag.Val f))
      else
        match (if automaticEnvApplied v
               then getEnv w v (mergeWithEnvPrefix v lcaseKey) else None) with
        | Some val => Some (AString val)
        | None =>
            match config v !! lcaseKey with
            | Some x => Some x
            | None => Some (pflag.toAny (pflag.Val f))
            end
        end
  | None =>
      match (if automaticEnvApplied v
             then getEnv w v (mergeWithEnvPrefix v lcaseKey) else None) with
      | Some val => Some (AString val)
      | None => config v !! lcaseKey
      end
  end.

Definition Get (w : World) (v : Viper) (key : string) : option any :=
  find w v (strings.ToLower key).

Definition AllKeys (v : Viper) : list string :=
  (map_to_list (pflags v)).*1 ++ (map_to_list (config v)).*1.

Definition AllSettings (w : World) (v : Viper) : gmap string any :=
  list_to_map (omap (fun k => pair k <$> Get w v k) (AllKeys v)).


(** [MergeInConfig]: the package adds no search path, so without a
    config file set there is none to find; values of the file take the
    place of earlier config values. *)
Definition MergeInConfig (w : World) (v : Viper) : option error * Viper :=
  if String.eqb (configFile v) "" then
    (Some ("Config File " ++ configName v ++ " Not Found"), v)
  else
    match loadConfig w (configFile v) with
    | inl e => (Some e, v)
    | inr cfg => (None, setConfig (cfg ∪ config v) v)
    end.

End viper.

(** ** package config (config.go) *)

Module config.

Record Manager := mkManager {
  name : string;
  flags : pflag.FlagSet;
  viper : viper.Viper
}.

(** The replacer [strings.NewReplacer(".", "_", "-", "_")]. *)
Definition envKeyReplacer : strings.Replacer :=
  [("."%char, "_"%char); ("-"%char, "_"%char)].

(** [New]. *)
Definition New (nm : string) : Manager :=
  let v := viper.New in
  let v := viper.SetEnvKeyReplacer envKeyReplacer v in
  let v := viper.AllowEmptyEnv true v in
  let v := viper.SetEnvPrefix nm v in
  let v := viper.SetConfigName nm v in
  let v := viper.AutomaticEnv v in
  mkManager nm (pflag.NewFlagSet nm) v.

(** [AddConfigFlag]. *)
Definition AddConfigFlag (persistentFlags : pflag.FlagSet)
  : Exec pflag.FlagSet :=
  pflag.StringP "config" "c" "./config.yml"
    "config file (Default; config.yml in the current directory)"
    persistentFlags.

(** [ReadFromFile]: the error of [GetString] is dropped. *)
Definition ReadFromFile (w : World) (mgr : Manager) (fs : pflag.FlagSet)
  : option error * Manager :=
  let configFile := fst (pflag.GetString fs "config") in
  if negb (String.eqb configFile "") then
    let v := viper.SetConfigFile configFile (viper mgr) in
    let '(err, v) := viper.MergeInConfig w v in
    (err, mkManager (name mgr) (flags mgr) v)
  else (None, mgr).

(** The test [(name == "" || name == "-") && kind != reflect.Struct]. *)
Definition skipped (nm : string) (k : reflect.Kind) : bool :=
  (String.eqb nm "" || String.eqb nm "-")
  && negb (bool_decide (k = reflect.Struct)).

(** [if prefix != "" { name = prefix + "." + name }]. *)
Definition qualify (prefix nm : string) : string :=
  if negb (String.eqb prefix "") then prefix ++ "." ++ nm else nm.

(** [parseStructToFlags]: [NumField] panics on a type that is not a
    struct; the inner [loop] is the [for] over the fields. *)
Fixpoint parseStructToFlags (prefix : string) (strT : reflect.Type_)
    (fs : pflag.FlagSet) {struct strT} : Exec pflag.FlagSet :=
  match strT with
  | reflect.TStruct fields =>
      (fix loop (l : list reflect.StructField) (fs : pflag.FlagSet)
         {struct l} : Exec pflag.FlagSet :=
         match l with
         | [] => Ok fs
         | field :: rest =>
             let nm := reflect.tagGet (reflect.fieldTag field) "name" in
             let kind := reflect.kind (reflect.fieldType field) in
             if skipped nm kind then loop rest fs
             else
               let desc := reflect.tagGet (reflect.fieldTag field) "description" in
               let short := reflect.tagGet (reflect.fieldTag field) "short" in
               let nm := qualify prefix nm in
               match
                 match kind with
                 | reflect.String => pflag.StringP nm short "" desc fs
                 | reflect.Bool => pflag.BoolP nm short false desc fs
                 | reflect.Uint => pflag.UintP nm short 0%N desc fs
                 | reflect.Uint64 => pflag.Uint64P nm short 0%N desc fs
                 | reflect.Int => pflag.IntP nm short 0%Z desc fs
                 | reflect.Int64 => pflag.Int64P nm short 0%Z desc fs
                 | reflect.Float64 => pflag.Float64P nm short 0%N desc fs
                 | reflect.Slice => pflag.StringSliceP nm short [] desc fs
                 | reflect.Struct =>
                     parseStructToFlags nm (reflect.fieldType field) fs
                 | reflect.Map => pflag.StringSliceP nm short [] desc fs
                 | _ => Panic ("Unknown type in config: " ++ reflect.kindName kind)
                 end
               with
               | Ok fs' => loop rest fs'
               | Panic msg => Panic msg
               end
         end) fields fs
  | _ => Panic "reflect: NumField of non-struct type"
  end.


(** [Unmarshal]: the result of [decoder.Decode] is not looked at. *)
Definition Unmarshal (w : World) (mgr : Manager) (cfg : option reflect.Type_)
  : Exec (option error) :=
  let '(decoder, err) :=
    mapstructure.NewDecoder
      (mapstructure.mkDecoderConfig "name" cfg
         (Some hooks.stringSliceToStringMapHookFunc)) in
  match err with
  | Some e => Ok (Some e)
  | None =>
      let* _ := decode w decoder (viper.AllSettings w (viper mgr)) in
      Ok None
  end.

End config.

(** ** The revision of config.go without the hook

    [Unmarshal] as it stands in the revision of config.go that configures
    its decoder without a decode hook. *)
Module config_nohook.

Definition Unmarshal (w : World) (mgr : config.Manager)
    (cfg : option reflect.Type_) : Exec (option error) :=
  let '(decoder, err) :=
    mapstructure.NewDecoder (mapstructure.mkDecoderConfig "name" cfg None) in
  match err with
  | Some e => Ok (Some e)
  | None =>
      let* _ := decode w decoder (viper.AllSettings w (config.viper mgr)) in
      Ok None
  end.

End config_nohook.

(** ** The walk, one field at a time *)

(** The fields of a struct type, walked under a prefix. *)
Definition parseFields (prefix : string) (l : list reflect.StructField)
    (fs : pflag.FlagSet) : Exec pflag.FlagSet :=
  config.parseStructToFlags prefix (reflect.TStruct l) fs.

Definition nameTag (f : reflect.StructField) : string :=
  reflect.tagGet (reflect.fieldTag f) "name".
Definition descTag (f : reflect.StructField) : string :=
  reflect.tagGet (reflect.fieldTag f) "description".
Definition shortTag (f : reflect.StructField) : string :=
  reflect.tagGet (reflect.fieldTag f) "short".
Definition fieldKind (f : reflect.StructField) : reflect.Kind :=
  reflect.kind (reflect.fieldType f).

(** One turn of the loop of [parseStructToFlags]. *)
Definition parseField (prefix : string) (f : reflect.StructField)
    (fs : pflag.FlagSet) : Exec pflag.FlagSet :=
  if config.skipped (nameTag f) (fieldKind f) then Ok fs
  else
    let nm := config.qualify prefix (nameTag f) in
    match fieldKind f with
    | reflect.String => pflag.StringP nm (shortTag f) "" (descTag f) fs
    | reflect.Bool => pflag.BoolP nm (shortTag f) false (descTag f) fs
    | reflect.Uint => pflag.UintP nm (shortTag f) 0%N (descTag f) fs
    | reflect.Uint64 => pflag.Uint64P nm (shortTag f) 0%N (descTag f) fs
    | reflect.Int => pflag.IntP nm (shortTag f) 0%Z (descTag f) fs
    | reflect.Int64 => pflag.Int64P nm (shortTag f) 0%Z (descTag f) fs
    | reflect.Float64 => pflag.Float64P nm (shortTag f) 0%N (descTag f) fs
    | reflect.Slice => pflag.StringSliceP nm (shortTag f) [] (descTag f) fs
    | reflect.Struct => config.parseStructToFlags nm (reflect.fieldType f) fs
    | reflect.Map => pflag.StringSliceP nm (shortTag f) [] (descTag f) fs
    | k => Panic ("Unknown type in config: " ++ reflect.kindName k)
    end.

(** The kinds that get a flag of their own. *)
Definition primitiveKind (k : reflect.Kind) : bool :=
  match k with
  | reflect.String | reflect.Bool | reflect.Int | reflect.Int64
  | reflect.Uint | reflect.Uint64 | reflect.Float64
  | reflect.Slice | reflect.Map => true
  | _ => false
  end.

(** The documented default of each of these kinds: the empty string,
    false, zero, and the empty sequence for the two repeatable kinds. *)
Definition documentedDefault (k : reflect.Kind) : option pflag.Value :=
  match k with
  | reflect.String => Some (pflag.stringValue "")
  | reflect.Bool => Some (pflag.boolValue false)
  | reflect.Int => Some (pflag.intValue 0)
  | reflect.Int64 => Some (pflag.int64Value 0)
  | reflect.Uint => Some (pflag.uintValue 0)
  | reflect.Uint64 => Some (pflag.uint64Value 0)
  | reflect.Float64 => Some (pflag.float64Value 0)
  | reflect.Slice | reflect.Map => Some (pflag.stringSliceValue [])
  | _ => None
  end.

(** A flag set with more flags defined at its end. *)
Definition extend (fs : pflag.FlagSet) (l : list pflag.Flag) : pflag.FlagSet :=
  pflag.mkFlagSet (pflag.name fs) (pflag.formal fs ++ l).

(** A name tag that is neither empty nor "-". *)
Definition named (f : reflect.StructField) : Prop :=
  nameTag f <> "" /\ nameTag f <> "-".

(** The flags a walk defines, read off an empty flag set. *)
Definition flagsOfType (prefix : string) (t : reflect.Type_)
  : Exec (list pflag.Flag) :=
  let* fs := config.parseStructToFlags prefix t (pflag.NewFlagSet "") in
  Ok (pflag.formal fs).

(** The results of a function that may panic, over a list, in order;
    the first panic is the outcome. *)
Fixpoint mapE {A B} (f : A -> Exec B) (l : list A) : Exec (list B) :=
  match l with
  | [] => Ok []
  | a :: rest =>
      let* b := f a in
      let* bs := mapE f rest in
      Ok (b :: bs)
  end.

(** ** The flags a description calls for *)

(** A name tag that is neither empty nor "-", as a test. *)
Definition properName (nm : string) : bool :=
  match nm with
  | "" | "-" => false
  | _ => true
  end.

(** The dotted name of a segment below a path; the segment alone at top
    level. *)
Definition dotted (path segment : string) : string :=
  match path with
  | "" => segment
  | _ => path ++ "." ++ segment
  end.

(** The flags called for by a description, in declaration order: one for
    every field of a primitive kind with a proper name, and those of the
    fields of every struct field, whose dotted name is the path of its
    children. *)
Fixpoint plannedFlags (path : string) (t : reflect.Type_) : list pflag.Flag :=
  match t with
  | reflect.TStruct fields =>
      flat_map
        (fun f =>
           match fieldKind f with
           | reflect.Struct =>
               plannedFlags (dotted path (nameTag f)) (reflect.fieldType f)
           | k =>
               match properName (nameTag f), documentedDefault k with
               | true, Some d =>
                   [pflag.mkFlag (dotted path (nameTag f)) (shortTag f)
                      (descTag f) d false]
               | _, _ => []
               end
           end)
        fields
  | _ => []
  end.

Definition plannedOfField (path : string) (f : reflect.StructField)
  : list pflag.Flag :=
  plannedFlags path (reflect.TStruct [f]).

(** A flag set takes a flag when its name is new and its shorthand is
    empty, or one character that no flag of the set uses. *)
Definition accepted (existing : list pflag.Flag) (fl : pflag.Flag) : bool :=
  forallb (fun g => negb (String.eqb (pflag.Name g) (pflag.Name fl))) existing
  && (String.eqb (pflag.Shorthand fl) ""
      || (Nat.leb (String.length (pflag.Shorthand fl)) 1
          && forallb
               (fun g => negb (String.eqb (pflag.Shorthand g) (pflag.Shorthand fl)))
               existing)).

(** A flag set takes a sequence of flags, one after the other. *)
Fixpoint acceptedAll (existing l : list pflag.Flag) : bool :=
  match l with
  | [] => true
  | fl :: rest => accepted existing fl && acceptedAll (existing ++ [fl]) rest
  end.

(** ** The names of the flags, in the words of their description

    A name tag that is present and not "-" is joined to the prefix by a
    dot when the prefix is not empty; otherwise the name comes from the
    recursion context alone, which is the prefix.  A struct field hands
    the name so computed to its fields as their prefix, with a name tag
    or without one. *)
Definition describedName (prefix nm : string) : string :=
  if String.eqb nm "" || String.eqb nm "-" then prefix
  else if String.eqb prefix "" then nm
  else prefix ++ "." ++ nm.

Fixpoint describedNames (prefix : string) (t : reflect.Type_) : list string :=
  match t with
  | reflect.TStruct fields =>
      flat_map
        (fun f =>
           match fieldKind f with
           | reflect.Struct =>
               describedNames (describedName prefix (nameTag f))
                 (reflect.fieldType f)
           | _ =>
               if String.eqb (nameTag f) "" || String.eqb (nameTag f) "-"
               then []
               else [describedName prefix (nameTag f)]
           end)
        fields
  | _ => []
  end.

(** The names of the flags a walk defines. *)
Definition flagNames (prefix : string) (t : reflect.Type_) : Exec (list string) :=
  let* l := flagsOfType prefix t in Ok (List.map pflag.Name l).

(** ** Schema errors *)

(** Some field the walk reaches has a proper name and a kind that is
    neither primitive nor struct. *)
Fixpoint hasUnsupportedField (t : reflect.Type_) : bool :=
  match t with
  | reflect.TStruct fields =>
      existsb
        (fun f =>
           match fieldKind f with
           | reflect.Struct => hasUnsupportedField (reflect.fieldType f)
           | k => properName (nameTag f) && negb (primitiveKind k)
           end)
        fields
  | _ => false
  end.

Definition fieldUnsupported (f : reflect.StructField) : bool :=
  hasUnsupportedField (reflect.TStruct [f]).




(** The number of ['='] bytes in a string. *)
Fixpoint countEq (s : string) : nat :=
  match s with
  | EmptyString => 0
  | String a rest => (if Ascii.eqb a "="%char then 1 else 0) + countEq rest
  end.

(** A string cut at its first ['=']: what stands before it and what
    stands after it. *)
Fixpoint cutAtFirstEq (s : string) : option (string * string) :=
  match s with
  | EmptyString => None
  | String a rest =>
      if Ascii.eqb a "="%char then Some ("", rest)
      else match cutAtFirstEq rest with
           | Some (k, v) => Some (String a k, v)
           | None => None
           end
  end.

(** The value a key ends up with: that of the last element of the
    sequence whose key it is. *)
Fixpoint lastValue (k : string) (sl : list string) : option string :=
  match sl with
  | [] => None
  | s :: rest =>
      match lastValue k rest with
      | Some v => Some v
      | None =>
          match cutAtFirstEq s with
          | Some (k', v) => if String.eqb k' k then Some v else None
          | None => None
          end
      end
  end.

(** The first element without any ['=']. *)
Definition firstWithoutEq (sl : list string) : option string :=
  List.find (fun s => Nat.eqb (countEq s) 0) sl.

(** A slice whose elements are of kind string. *)
Definition sliceOfStrings (f : reflect.Type_) : bool :=
  match f with
  | reflect.TSlice e => bool_decide (reflect.kind e = reflect.String)
  | _ => false
  end.

(** A map whose values are of kind string. *)
Definition mapWithStringValues (t : reflect.Type_) : bool :=
  match t with
  | reflect.TMap _ e => bool_decide (reflect.kind e = reflect.String)
  | _ => false
  end.

Definition stringSlice : reflect.Type_ :=
  reflect.TSlice (reflect.TBasic reflect.BString).
Definition stringMap : reflect.Type_ :=
  reflect.TMap (reflect.TBasic reflect.BString) (reflect.TBasic reflect.BString).

(** ** Environment variables and precedence, in the words of their description *)

(** Every ['.'] and every ['-'] replaced by ['_']. *)
Fixpoint transliterate (s : string) : string :=
  match s with
  | EmptyString => EmptyString
  | String c rest =>
      String (match c with
              | "."%char | "-"%char => "_"%char
              | _ => c
              end) (transliterate rest)
  end.

(** A text of ASCII characters only.  On such a text [strings.ToUpper]
    and [strings.ToLower] of Go change the letters and nothing else, as
    the functions of the same name above do; the properties of the
    environment variables are stated for such texts. *)
Fixpoint asciiOnly (s : string) : bool :=
  match s with
  | EmptyString => true
  | String c rest => Nat.ltb (nat_of_ascii c) 128 && asciiOnly rest
  end.

(** The owning name as prefix, joined by ['_'] to the transliterated
    dotted name, all upper-cased. *)
Definition describedEnvVar (owner nm : string) : string :=
  strings.ToUpper (owner ++ "_" ++ transliterate nm).

(** The value a key has from a flag set on the command line. *)
Definition fromFlag (v : viper.Viper) (key : string) : option any :=
  match viper.pflags v !! key with
  | Some f => if pflag.Changed f then Some (pflag.toAny (pflag.Val f)) else None
  | None => None
  end.

(** The value a key has from the environment. *)
Definition fromEnv (w : World) (v : viper.Viper) (key : string) : option any :=
  AString <$>
    (if viper.automaticEnvApplied v
     then viper.getEnv w v (viper.mergeWithEnvPrefix v key) else None).

(** ** A decoding pass cut down to the hook

    Of [Decoder.Decode] only this is kept: for each field of the result
    struct whose tag names a key of the input, the configured hook is
    run on the value with the value's type and the field's type, and the
    first error of the hook is the error of the pass, passed on as the
    hook gave it.  The assignment into the result is left out. *)

Definition typeOf (a : any) : reflect.Type_ :=
  match a with
  | ANil => reflect.TInterface
  | AString _ => reflect.TBasic reflect.BString
  | ABool _ => reflect.TBasic reflect.BBool
  | AInt _ => reflect.TBasic reflect.BInt
  | AStrings _ => reflect.TSlice (reflect.TBasic reflect.BString)
  | AStringMap _ =>
      reflect.TMap (reflect.TBasic reflect.BString) (reflect.TBasic reflect.BString)
  | AOther t => t
  end.

Fixpoint runHook (h : mapstructure.DecodeHookFunc) (tag : string)
    (fields : list reflect.StructField) (input : gmap string any)
  : Exec (option error) :=
  match fields with
  | [] => Ok None
  | f :: rest =>
      match input !! reflect.tagGet (reflect.fieldTag f) tag with
      | Some data =>
          let* r := h (typeOf data) (reflect.fieldType f) data in
          match snd r with
          | Some e => Ok (Some e)
          | None => runHook h tag rest input
          end
      | None => runHook h tag rest input
      end
  end.

Definition hookDecode (c : mapstructure.DecoderConfig) (input : gmap string any)
  : Exec (option error) :=
  match mapstructure.Result c, mapstructure.DecodeHook c with
  | Some (reflect.TPointer (reflect.TStruct fields)), Some h =>
      runHook h (mapstructure.TagName c) fields input
  | _, _ => Ok None
  end.

(** ** Sample worlds *)

(** A world whose config file gives the key [labels] the sequence
    [["bad"]], with the decoding pass above. *)
Definition badLabelsWorld : World :=
  mkWorld (fun _ => None)
    (fun _ => inr {[ "labels" := AStrings ["bad"] ]})
    hookDecode.


(** Nothing in the environment, no file to load, no failure. *)
Definition quietWorld : World :=
  mkWorld (fun _ => None) (fun _ => inl "open: no such file or directory")
    (fun _ _ => Ok None).

(** ** Sample configuration descriptions *)

Definition portField : reflect.StructField :=
  reflect.mkField "Port" (reflect.TBasic reflect.BInt)
    [("name", "port"); ("short", "p"); ("description", "port to listen on")].

Definition hostField : reflect.StructField :=
  reflect.mkField "Host" (reflect.TBasic reflect.BString)
    [("name", "host"); ("description", "host name")].

Definition doneField : reflect.StructField :=
  reflect.mkField "done" (reflect.TChan (reflect.TBasic reflect.BBool))
    [("name", "-")].

Definition labelsField : reflect.StructField :=
  reflect.mkField "Labels"
    (reflect.TMap (reflect.TBasic reflect.BString) (reflect.TBasic reflect.BString))
    [("name", "labels")].

(** [struct { Host string; Port int }], embedded without a name tag. *)
Definition embeddedField : reflect.StructField :=
  reflect.mkField "Listener" (reflect.TStruct [hostField; portField]) [].

Definition serverField : reflect.StructField :=
  reflect.mkField "Server" (reflect.TStruct [embeddedField; labelsField])
    [("name", "server")].

Definition rootConfig : reflect.Type_ :=
  reflect.TStruct [serverField; doneField].

(** [struct { Host string; Port int }] under the name tag "-". *)
Definition dashField : reflect.StructField :=
  reflect.mkField "Listener" (reflect.TStruct [hostField; portField])
    [("name", "-")].



(** The flags of a new flag set named [root] after [AddConfigFlag]. *)
Definition rootFlags : pflag.FlagSet :=
  match config.AddConfigFlag (pflag.NewFlagSet "root") with
  | Ok fs => fs
  | Panic _ => pflag.NewFlagSet "root"
  end.

(** The root flags after [--config=] was given with an empty value. *)
Definition emptyConfigFlags : pflag.FlagSet :=
  pflag.mkFlagSet "root"
    [pflag.mkFlag "config" "c"
       "config file (Default; config.yml in the current directory)"
       (pflag.stringValue "") true].

(** [*struct { Labels map[string]string }], the result of a decode. *)
Definition labelsResult : option reflect.Type_ :=
  Some (reflect.TPointer (reflect.TStruct [labelsField])).

(** The manager named [app] after reading the config file named by the
    [config] flag at its default. *)
Definition managerAfterFile (w : World) : config.Manager :=
  snd (config.ReadFromFile w (config.New "app") rootFlags).


(** Every struct field the walk reaches has a proper name tag. *)
Fixpoint structsNamed (t : reflect.Type_) : bool :=
  match t with
  | reflect.TStruct fields =>
      forallb
        (fun f =>
           match fieldKind f with
           | reflect.Struct =>
               properName (nameTag f) && structsNamed (reflect.fieldType f)
           | _ => true
           end)
        fields
  | _ => true
  end.

(** The outcome of a walk over a flag set: it returns exactly when the
    type is a struct without unsupported field whose flags the set takes
    one after the other, and then the set holds these flags at its end. *)
Definition walkSpec (t : reflect.Type_) : Prop :=
  forall prefix fs fs',
    config.parseStructToFlags prefix t fs = Ok fs' <->
    reflect.kind t = reflect.Struct /\
    hasUnsupportedField t = false /\
    acceptedAll (pflag.formal fs) (plannedFlags prefix t) = true /\
    fs' = extend fs (plannedFlags prefix t).

(** * Further definitions *)

(** ** package config: the accessors *)

Module config_accessors.


(** [Viper]. *)
Definition Viper (mgr : config.Manager) : viper.Viper := config.viper mgr.

End config_accessors.

(** ** The flags of a walk *)

(** The zero value of a flag type. *)
Definition zeroValue (v : pflag.Value) : bool :=
  match v with
  | pflag.stringValue s => String.eqb s ""
  | pflag.boolValue b => negb b
  | pflag.uintValue n | pflag.uint64Value n => N.eqb n 0
  | pflag.intValue z | pflag.int64Value z => Z.eqb z 0
  | pflag.float64Value bits => N.eqb bits 0
  | pflag.stringSliceValue sl => match sl with [] => true | _ => false end
  end.

(** A flag as the walk leaves it: not yet changed, at the zero value. *)
Definition pristine (fl : pflag.Flag) : Prop :=
  pflag.Changed fl = false /\ zeroValue (pflag.Val fl) = true.

(** ** The hook, the other way round *)

(** A key and a value as one occurrence of a repeatable flag. *)
Definition render (kv : string * string) : string :=
  fst kv ++ "=" ++ snd kv.

(** ** package assertions

    testify's [isNil] and the [%v] form of a value are taken as given.
    Of [testing.T] only the failed mark is kept.  [log.Fatal] ends the
    process with status 1 after its message. *)

Module assertions.

Definition IsNil : string := "nil".
Definition IsNotNil : string := "not-nil".

Record T := mkT { failed : bool }.

(** What a call comes to: it returns, or the process has exited. *)
Inductive Outcome (A : Type) : Type :=
| Returns (a : A) (t : T)
| Exits (status : Z) (message : string) (t : T).
Arguments Returns {A} a t.
Arguments Exits {A} status message t.

Record Lib := mkLib {
  isNil : any -> bool;
  formatV : any -> string
}.

(** [assert.Nil]: true on nil, else the test is marked failed. *)
Definition assertNil (lib : Lib) (t : T) (object : any) : bool * T :=
  if isNil lib object then (true, t) else (false, mkT true).

(** [assert.NotNil]. *)
Definition assertNotNil (lib : Lib) (t : T) (object : any) : bool * T :=
  if negb (isNil lib object) then (true, t) else (false, mkT true).

(** [Assertion.Assert]; the [return false] after a [log.Fatal] is never
    reached. *)
Definition Assert (lib : Lib) (t : T) (condition : string) (actual : any)
    (expected : list any) : Outcome bool :=
  if String.eqb condition IsNil then
    let '(ok, t') := assertNil lib t actual in
    if negb ok then Exits 1 ("Expected nil, got " ++ formatV lib actual) t'
    else Returns true t'
  else if String.eqb condition IsNotNil then
    let '(ok, t') := assertNotNil lib t actual in
    if negb ok then Exits 1 "Expected value to not be nil, but it was!" t'
    else Returns true t'
  else Returns false t.

End assertions.

(** A library in which only the nil interface is nil. *)
Definition nilOnly : assertions.Lib :=
  assertions.mkLib (fun a => match a with ANil => true | _ => false end)
    (fun _ => "<value>").

(** ** package zapcore, as far as the logger uses it *)

Module zapcore.

Inductive FieldType :=
| UnknownType | ArrayMarshalerType | ObjectMarshalerType | BinaryType
| BoolType | ByteStringType | Complex128Type | Complex64Type | DurationType
| Float64Type | Float32Type | Int64Type | Int32Type | Int16Type | Int8Type
| StringType | TimeType | TimeFullType | Uint64Type | Uint32Type | Uint16Type
| Uint8Type | UintptrType | ReflectType | NamespaceType | StringerType
| ErrorType | SkipType | InlineMarshalerType.

#[global] Instance FieldType_eq_dec : EqDecision FieldType.
Proof. solve_decision. Defined.

Record Field := mkField {
  Key : string;
  Type_ : FieldType;
  Integer : Z;
  String_ : string;
  Interface : option any
}.

(** The zero value of [Field]. *)
Definition zeroField : Field := mkField "" UnknownType 0 "" None.

(** [Field.AddTo]: a field of the unknown type cannot be added to an
    encoder. *)
Definition AddTo (f : Field) : Exec unit :=
  match Type_ f with
  | UnknownType => Panic ("unknown field type: " ++ Key f)
  | _ => Ok tt
  end.

Inductive Level :=
| DebugLevel | InfoLevel | WarnLevel | ErrorLevel
| DPanicLevel | PanicLevel | FatalLevel.

Definition levelNum (l : Level) : Z :=
  match l with
  | DebugLevel => -1 | InfoLevel => 0 | WarnLevel => 1 | ErrorLevel => 2
  | DPanicLevel => 3 | PanicLevel => 4 | FatalLevel => 5
  end.

(** A level enables the levels from itself upwards. *)
Definition Enabled (min lvl : Level) : bool := (levelNum min <=? levelNum lvl)%Z.

Inductive TimeEncoder := NoTimeEncoder | EpochTimeEncoder | RFC3339TimeEncoder.

#[global] Instance TimeEncoder_eq_dec : EqDecision TimeEncoder.
Proof. solve_decision. Defined.

Record EncoderConfig := mkEncoderConfig {
  MessageKey : string;
  LevelKey : string;
  TimeKey : string;
  NameKey : string;
  CallerKey : string;
  FunctionKey : string;
  StacktraceKey : string;
  EncodeTime : TimeEncoder
}.

End zapcore.

(** ** package zap, as far as the logger uses it

    An encoder is identified with the encoder configuration it works
    with, and a constructor of encoders with a function on encoder
    configurations.  The registry of constructors is a variable of the
    process and is passed explicitly. *)

Module zap.

Record Config := mkConfig {
  Level : zapcore.Level;
  DisableCaller : bool;
  DisableStacktrace : bool;
  Encoding : string;
  EncoderConfig : zapcore.EncoderConfig
}.

Definition NewProductionEncoderConfig : zapcore.EncoderConfig :=
  zapcore.mkEncoderConfig "msg" "level" "ts" "logger" "caller" "" "stacktrace"
    zapcore.EpochTimeEncoder.

Definition NewProductionConfig : Config :=
  mkConfig zapcore.InfoLevel false false "json" NewProductionEncoderConfig.

Definition Constructor := zapcore.EncoderConfig -> zapcore.EncoderConfig.
Definition Registry := gmap string Constructor.

(** The registry of a fresh process. *)
Definition initialRegistry : Registry :=
  {[ "console" := (fun ec => ec); "json" := (fun ec => ec) ]}.

(** [RegisterEncoder]: a name that is taken is not registered again. *)
Definition RegisterEncoder (name : string) (c : Constructor) (reg : Registry)
  : option error * Registry :=
  if String.eqb name "" then (Some "no encoder name specified", reg)
  else match reg !! name with
       | Some _ => (Some ("encoder already registered for name " ++ name), reg)
       | None => (None, <[name := c]> reg)
       end.

(** The logger proper: its level, its encoder, whether it annotates the
    caller and takes stack traces, and the fields added by [With]. *)
Record Logger := mkLogger {
  level : zapcore.Level;
  encoder : zapcore.EncoderConfig;
  addCaller : bool;
  addStack : bool;
  context : list zapcore.Field
}.

(** [Config.Build]: the encoder is made by the constructor registered
    under the name of the encoding; [sinks] is the outcome of opening the
    output paths. *)
Definition Build (sinks : option error) (cfg : Config) (reg : Registry)
  : Logger + error :=
  if negb (String.eqb (zapcore.TimeKey (EncoderConfig cfg)) "")
     && bool_decide (zapcore.EncodeTime (EncoderConfig cfg) = zapcore.NoTimeEncoder)
  then inr "missing EncodeTime in EncoderConfig"
  else if String.eqb (Encoding cfg) "" then inr "no encoder name specified"
  else match reg !! Encoding cfg with
       | None => inr ("no encoder registered for name " ++ Encoding cfg)
       | Some c =>
           match sinks with
           | Some e => inr e
           | None =>
               inl (mkLogger (Level cfg) (c (EncoderConfig cfg))
                      (negb (DisableCaller cfg)) (negb (DisableStacktrace cfg)) [])
           end
       end.

(** [Logger.With]: without fields the logger itself; else every field
    is added to the encoder of a copy. *)
Definition With (fields : list zapcore.Field) (l : Logger) : Exec Logger :=
  match fields with
  | [] => Ok l
  | _ =>
      let* _ := mapE zapcore.AddTo fields in
      Ok (mkLogger (level l) (encoder l) (addCaller l) (addStack l)
            (context l ++ fields)%list)
  end.

(** What the logger does with a message before the core sees it: it is
    dropped by the level, handed to the core, or, at the fatal level,
    handed to the core and followed by the end of the process; at the
    panic level the logger panics.  What the core does with a message it
    is handed (sampling, encoding, writing, where the encoder may panic
    on its own) is not part of [log]. *)
Inductive Logged :=
| Dropped
| Handed (lvl : zapcore.Level) (msg : string) (fields : list zapcore.Field)
| Exited (status : Z) (msg : string) (fields : list zapcore.Field).

Definition log (lvl : zapcore.Level) (msg : string) (l : Logger) : Exec Logged :=
  match lvl with
  | zapcore.FatalLevel => Ok (Exited 1 msg (context l))
  | zapcore.PanicLevel => Panic msg
  | _ => if zapcore.Enabled (level l) lvl then Ok (Handed lvl msg (context l))
         else Ok Dropped
  end.

End zap.

(** ** Slices of fields

    A slice is a window on an array of the heap: the array, a length and
    a capacity.  [append] writes in place when the capacity suffices and
    moves to a new array when it does not; by how much a new array
    exceeds the need is left to the runtime. *)

Module slices.

Record Slice := mkSlice { arr : nat; len : nat; cap : nat }.

Record Heap := mkHeap {
  arrays : gmap nat (list zapcore.Field);
  next : nat
}.

Record Runtime := mkRuntime { growCap : nat -> nat -> nat }.

Definition emptyHeap : Heap := mkHeap ∅ 1.

(** [make([]zap.Field, 0)]. *)
Definition makeEmpty : Slice := mkSlice 0 0 0.

Definition cells (h : Heap) (s : Slice) : list zapcore.Field :=
  default [] (arrays h !! arr s).

(** The elements seen through a slice. *)
Definition read (h : Heap) (s : Slice) : list zapcore.Field :=
  take (len s) (cells h s).

(** [append(s, xs...)]. *)
Definition append (rt : Runtime) (s : Slice) (xs : list zapcore.Field) (h : Heap)
  : Slice * Heap :=
  let n := len s + length xs in
  if Nat.leb n (cap s) then
    (mkSlice (arr s) n (cap s),
     mkHeap (alter (fun a => take (len s) a ++ xs ++ drop n a)%list (arr s)
               (arrays h))
       (next h))
  else
    let c := Nat.max (growCap rt (cap s) n) n in
    (mkSlice (next h) n c,
     mkHeap (<[next h := (read h s ++ xs ++ replicate (c - n) zapcore.zeroField)%list]>
               (arrays h))
       (S (next h))).

End slices.

(** ** Contexts and loggers

    A context is the chain of the values put on it.  A [Logger] holds a
    context and a context may hold a [Logger], so the two are declared
    together. *)

Inductive CtxKey :=
| loggerKeyType (s : string)
| stringKey (s : string)
| otherKey (n : nat).

#[global] Instance CtxKey_eq_dec : EqDecision CtxKey.
Proof. solve_decision. Defined.

Inductive Context :=
| Background
| valueCtx (parent : Context) (key : CtxKey) (val : CtxVal)
with CtxVal :=
| VLogger (l : Logger)
| VAny (a : any)
with Logger :=
| mkLogger (ctx : option Context) (logger : zap.Logger) (fields : slices.Slice).

Module context.

(** [WithValue]: a nil parent is refused. *)
Definition WithValue (parent : option Context) (key : CtxKey) (val : CtxVal)
  : Exec Context :=
  match parent with
  | None => Panic "cannot create context from nil parent"
  | Some p => Ok (valueCtx p key val)
  end.

(** [Value]: the value of the nearest entry with the key, or nil. *)
Fixpoint Value (c : Context) (key : CtxKey) : option CtxVal :=
  match c with
  | Background => None
  | valueCtx parent k v => if decide (k = key) then Some v else Value parent key
  end.

End context.

(** ** package net/http, as far as the middleware uses it *)

Module http.

Record Request := mkRequest { rctx : option Context; target : string }.

(** [Request.Context]: the background context when none is set. *)
Definition Context_ (r : Request) : Context :=
  match rctx r with
  | Some c => c
  | None => Background
  end.

(** [Request.WithContext]: a nil context is refused. *)
Definition WithContext (r : Request) (c : option Context) : Exec Request :=
  match c with
  | None => Panic "nil context"
  | Some c => Ok (mkRequest (Some c) (target r))
  end.

(** A handler, by what serving a request on a response writer comes
    to. *)
Definition Handler (W Resp : Type) := W -> Request -> Exec Resp.

End http.

(** ** package logger *)

Module logger.

Definition ctx (l : Logger) : option Context :=
  match l with mkLogger c _ _ => c end.
Definition logger_ (l : Logger) : zap.Logger :=
  match l with mkLogger _ z _ => z end.
Definition fields (l : Logger) : slices.Slice :=
  match l with mkLogger _ _ f => f end.

(** [reflectTypeToZapFieldType]; a kind that is not in the map gives the
    zero value. *)
Definition reflectTypeToZapFieldType (k : reflect.Kind) : zapcore.FieldType :=
  match k with
  | reflect.String => zapcore.StringType
  | reflect.Int64 => zapcore.Int64Type
  | reflect.Int => zapcore.Int64Type
  | _ => zapcore.UnknownType
  end.

Definition loggerKey : CtxKey := loggerKeyType "logger".

(** The type assertions [val.(string)], [val.(int)] and [val.(float64)]. *)
Definition assertString (val : any) : Exec string :=
  match val with
  | AString s => Ok s
  | _ => Panic "interface conversion: interface {} is not string"
  end.
Definition assertInt (val : any) : Exec Z :=
  match val with
  | AInt z => Ok z
  | _ => Panic "interface conversion: interface {} is not int"
  end.
Definition assertFloat64 (val : any) : Exec any :=
  match val with
  | AOther (reflect.TBasic reflect.BFloat64) => Ok val
  | _ => Panic "interface conversion: interface {} is not float64"
  end.

(** [field]: [reflect.TypeOf] of nil is nil and its [Kind] call fails;
    the case of [reflect.Int64] asserts [int]. *)
Definition field (key : string) (val : any) : Exec zapcore.Field :=
  match val with
  | ANil => Panic "invalid memory address or nil pointer dereference"
  | _ =>
      let kind := reflect.kind (typeOf val) in
      let zapType := reflectTypeToZapFieldType kind in
      match kind with
      | reflect.String =>
          let* s := assertString val in
          Ok (zapcore.mkField key zapType 0 s None)
      | reflect.Int =>
          let* z := assertInt val in
          Ok (zapcore.mkField key zapType z "" None)
      | reflect.Int64 =>
          let* z := assertInt val in
          Ok (zapcore.mkField key zapType z "" None)
      | reflect.Float64 =>
          let* x := assertFloat64 val in
          Ok (zapcore.mkField key zapType 0 "" (Some x))
      | _ => Ok zapcore.zeroField
      end
  end.

(** The loop of [Fields] from index [i] on, [a] being what is left of the
    arguments from there. *)
Fixpoint fieldsLoop (a : list any) (fields : list zapcore.Field)
  : Exec (list zapcore.Field) :=
  match a with
  | k :: v :: rest =>
      match k with
      | AString str =>
          let* f := field str v in
          fieldsLoop rest (fields ++ [f])%list
      | _ => fieldsLoop rest fields
      end
  | _ => Ok fields
  end.

(** [Fields]. *)
Definition Fields (a : list any) : Exec (list zapcore.Field) := fieldsLoop a [].

(** The encoder configuration [New] sets up. *)
Definition encoderConfig (debug : bool) : zapcore.EncoderConfig :=
  zapcore.mkEncoderConfig "msg" "" "ts" "" (if debug then "caller" else "") ""
    "trace" zapcore.RFC3339TimeEncoder.

(** [New]: the error of [RegisterEncoder] is dropped. *)
Definition New (sinks : option error) (c : option Context) (debug : bool)
    (reg : zap.Registry) : (option Logger * option error) * zap.Registry :=
  let config := zap.NewProductionConfig in
  let config :=
    zap.mkConfig zapcore.DebugLevel (zap.DisableCaller config)
      (zap.DisableStacktrace config) (zap.Encoding config)
      (zap.EncoderConfig config) in
  let cfg := encoderConfig debug in
  let config :=
    if negb debug then
      zap.mkConfig zapcore.InfoLevel true true (zap.Encoding config)
        (zap.EncoderConfig config)
    else config in
  let reg := snd (zap.RegisterEncoder "custom" (fun _ => cfg) reg) in
  let config :=
    zap.mkConfig (zap.Level config) (zap.DisableCaller config)
      (zap.DisableStacktrace config) "custom" (zap.EncoderConfig config) in
  match zap.Build sinks config reg with
  | inr err => ((None, Some err), reg)
  | inl z => ((Some (mkLogger c z slices.makeEmpty), None), reg)
  end.

(** [NewContextWithLogger]. *)
Definition NewContextWithLogger (parentCtx : option Context) (l : option Logger)
  : Exec Context :=
  match l with
  | None => Panic "Nil Logger"
  | Some lg => context.WithValue parentCtx loggerKey (VLogger lg)
  end.

(** [NewLoggerFromContext]: [Value] on a nil context fails. *)
Definition NewLoggerFromContext (c : option Context) : Exec Logger :=
  match c with
  | None => Panic "invalid memory address or nil pointer dereference"
  | Some c =>
      match context.Value c loggerKey with
      | Some (VLogger lg) => Ok lg
      | _ => Panic "No logger in context"
      end
  end.

(** [l.logger.With(l.fields...)] followed by the message at a level. *)
Definition logAt (lvl : zapcore.Level) (l : Logger) (msg : string)
    (h : slices.Heap) : Exec zap.Logged :=
  let* z := zap.With (slices.read h (fields l)) (logger_ l) in
  zap.log lvl msg z.

Definition Debug := logAt zapcore.DebugLevel.
Definition Info := logAt zapcore.InfoLevel.
Definition Warn := logAt zapcore.WarnLevel.
Definition Error := logAt zapcore.ErrorLevel.
Definition Fatal := logAt zapcore.FatalLevel.

(** [WithField]. *)
Definition WithField (rt : slices.Runtime) (l : Logger) (key : string) (val : any)
    (h : slices.Heap) : Exec (Logger * slices.Heap) :=
  let* f := field key val in
  let '(s, h') := slices.append rt (fields l) [f] h in
  Ok (mkLogger (ctx l) (logger_ l) s, h').

(** [WithFields]. *)
Definition WithFields (rt : slices.Runtime) (l : Logger) (f : list zapcore.Field)
    (h : slices.Heap) : Logger * slices.Heap :=
  let '(s, h') := slices.append rt (fields l) f h in
  (mkLogger (ctx l) (logger_ l) s, h').

(** [Middleware]: a nil receiver is not looked at before a request is
    served. *)
Definition Middleware {W Resp : Type} (lg : option Logger)
    (next : http.Handler W Resp) : http.Handler W Resp :=
  fun w r =>
    let* c := NewContextWithLogger (Some (http.Context_ r)) lg in
    let* r' := http.WithContext r (Some c) in
    next w r'.

End logger.

(** ** Sample loggers *)

(** A runtime that doubles the capacity. *)
Definition doubling : slices.Runtime :=
  slices.mkRuntime (fun old needed => Nat.max (2 * old) needed).

(** A heap in order: array 0 is never allocated and no array lies at or
    beyond the next free one. *)
Definition sane (h : slices.Heap) : Prop :=
  0 < slices.next h /\
  forall i, i = 0 \/ slices.next h <= i -> slices.arrays h !! i = None.

(** A slice is well placed on a heap: the length is within the
    capacity, the array is as long as the capacity, and it lies below the
    next free array. *)
Definition placed (h : slices.Heap) (s : slices.Slice) : Prop :=
  slices.len s <= slices.cap s /\
  length (slices.cells h s) = slices.cap s /\
  slices.arr s < slices.next h.

(** The pairs of arguments [Fields] takes up: those whose first member
    is a string. *)
Fixpoint stringKeyed (a : list any) : list (string * any) :=
  match a with
  | k :: v :: rest =>
      match k with
      | AString str => (str, v) :: stringKeyed rest
      | _ => stringKeyed rest
      end
  | _ => []
  end.

(** Keys and values laid out as the arguments of [Fields]. *)
Definition kvArgs (l : list (string * any)) : list any :=
  flat_map (fun kv => [AString (fst kv); snd kv]) l.

(** The keys of the entries of a context. *)
Fixpoint keysOf (c : Context) : list CtxKey :=
  match c with
  | Background => []
  | valueCtx parent k _ => k :: keysOf parent
  end.

(** The logger a process makes first, without debug. *)
Definition firstLogger : Logger :=
  mkLogger (Some Background)
    (zap.mkLogger zapcore.InfoLevel (logger.encoderConfig false) false false [])
    slices.makeEmpty.


(** The fields [a], [b] and [c] of the sample loggers. *)
Definition fieldA : zapcore.Field := zapcore.mkField "a" zapcore.StringType 0 "1" None.
Definition fieldB : zapcore.Field := zapcore.mkField "b" zapcore.StringType 0 "2" None.
Definition fieldC : zapcore.Field := zapcore.mkField "c" zapcore.StringType 0 "3" None.

(** The heap and the logger after three calls of [WithField] on the
    first logger, under the doubling runtime: three fields in an array of
    four. *)
Definition grownHeap : slices.Heap :=
  slices.mkHeap
    {[ 1 := [fieldA];
       2 := [fieldA; fieldB];
       3 := [fieldA; fieldB; fieldC; zapcore.zeroField] ]}
    4.

Definition grownLogger : Logger :=
  mkLogger (Some Background)
    (zap.mkLogger zapcore.InfoLevel (logger.encoderConfig false) false false [])
    (slices.mkSlice 3 3 4).

(** A handler that answers with the key of the first field of the logger
    it finds on the request, on the heap given. *)
Definition whoHandler (h : slices.Heap) : http.Handler unit string :=
  fun _ r =>
    let* l := logger.NewLoggerFromContext (http.rctx r) in
    Ok (match slices.read h (logger.fields l) with
        | f :: _ => zapcore.Key f
        | [] => ""
        end).
(** * Properties *)

(** ** The walk, one field at a time *)

Lemma parseFields_nil prefix fs : parseFields prefix [] fs = Ok fs.
Proof. reflexivity. Qed.

Lemma parseFields_cons prefix f rest fs :
  parseFields prefix (f :: rest) fs =
  let* fs' := parseField prefix f fs in parseFields prefix rest fs'.
Proof.
  unfold parseFields, parseField, nameTag, descTag, shortTag, fieldKind.
  cbn [config.parseStructToFlags].
  destruct (config.skipped _ _); [reflexivity|].
  destruct (reflect.kind (reflect.fieldType f)); reflexivity.
Qed.

Lemma parseFields_app prefix l1 l2 fs :
  parseFields prefix (l1 ++ l2) fs =
  let* fs1 := parseFields prefix l1 fs in parseFields prefix l2 fs1.
Proof.
  revert fs. induction l1 as [|f l1 IH]; intros fs; [reflexivity|].
  cbn [app]. rewrite !parseFields_cons.
  destruct (parseField prefix f fs) as [fs'|msg]; cbn [bindE]; [apply IH|reflexivity].
Qed.

Lemma skipped_named f : named f -> config.skipped (nameTag f) (fieldKind f) = false.
Proof.
  intros [H1 H2]. unfold config.skipped.
  apply String.eqb_neq in H1, H2. rewrite H1, H2. reflexivity.
Qed.

Lemma skipped_unnamed f :
  nameTag f = "" \/ nameTag f = "-" -> fieldKind f <> reflect.Struct ->
  config.skipped (nameTag f) (fieldKind f) = true.
Proof.
  intros Hn Hk. unfold config.skipped.
  rewrite (bool_decide_eq_false_2 _ Hk).
  destruct Hn as [-> | ->]; reflexivity.
Qed.

(** Induction over a type and, for a struct, the types of its fields. *)
Lemma Type_nested_ind (P : reflect.Type_ -> Prop) :
  (forall t, reflect.kind t <> reflect.Struct -> P t) ->
  (forall l, Forall (fun f => P (reflect.fieldType f)) l -> P (reflect.TStruct l)) ->
  forall t, P t.
Proof.
  intros Hother Hstruct. fix IH 1.
  intros [b|n e|e| | |k e|e|e|l];
    try (apply Hother; discriminate); [destruct b; apply Hother; discriminate|].
  apply Hstruct. revert l. fix IHl 1.
  intros [|f r]; constructor; [apply IH | apply IHl].
Qed.

Lemma extend_nil fs : extend fs [] = fs.
Proof. destruct fs as [n l]. unfold extend. cbn. rewrite app_nil_r. reflexivity. Qed.

Lemma extend_extend fs l1 l2 : extend (extend fs l1) l2 = extend fs (l1 ++ l2).
Proof. unfold extend. cbn. rewrite <- app_assoc. reflexivity. Qed.

Lemma append_assoc (a b c : string) : (a ++ b) ++ c = a ++ (b ++ c).
Proof.
  induction a as [|x a IH]; [reflexivity|].
  change (String x ((a ++ b) ++ c) = String x (a ++ (b ++ c))).
  rewrite IH. reflexivity.
Qed.

(** ** The checks of the flag library *)

Lemma find_none_forallb {A} (p : A -> bool) (l : list A) :
  List.find p l = None <-> forallb (fun x => negb (p x)) l = true.
Proof.
  induction l as [|x r IH]; cbn; [tauto|].
  destruct (p x); cbn; [split; discriminate | exact IH].
Qed.

Lemma rejects_accepted fs nm short usage v :
  pflag.rejects fs nm short = None <->
  accepted (pflag.formal fs) (pflag.mkFlag nm short usage v false) = true.
Proof.
  unfold pflag.rejects, accepted. cbn [pflag.Name pflag.Shorthand].
  destruct (List.find (fun f => String.eqb (pflag.Name f) nm) (pflag.formal fs))
    as [g|] eqn:Hn.
  - split; [discriminate|]. intros H. apply andb_true_iff in H as [H _].
    apply find_none_forallb in H. rewrite H in Hn. discriminate.
  - apply find_none_forallb in Hn. rewrite Hn. cbn [andb].
    destruct (String.eqb short ""); [tauto|]. cbn [orb].
    rewrite Nat.ltb_antisym.
    destruct (Nat.leb (String.length short) 1); cbn [negb andb];
      [|split; discriminate].
    destruct (List.find (fun f => String.eqb (pflag.Shorthand f) short) (pflag.formal fs))
      as [g|] eqn:Hs.
    + split; [discriminate|]. intros H.
      apply find_none_forallb in H. rewrite H in Hs. discriminate.
    + apply find_none_forallb in Hs. rewrite Hs. tauto.
Qed.

Lemma define_spec nm short v usage fs fs' :
  pflag.define nm short v usage fs = Ok fs' <->
  accepted (pflag.formal fs) (pflag.mkFlag nm short usage v false) = true /\
  fs' = extend fs [pflag.mkFlag nm short usage v false].
Proof.
  unfold pflag.define. rewrite <- (rejects_accepted fs nm short usage v).
  destruct (pflag.rejects fs nm short).
  - split; [discriminate | intros [[=] _]].
  - split; [intros [= <-]; split; reflexivity | intros [_ ->]; reflexivity].
Qed.

Lemma acceptedAll_app e l1 l2 :
  acceptedAll e (l1 ++ l2) = acceptedAll e l1 && acceptedAll (e ++ l1) l2.
Proof.
  revert e. induction l1 as [|x r IH]; intros e; cbn [acceptedAll app].
  - rewrite app_nil_r. reflexivity.
  - rewrite IH, <- app_assoc, andb_assoc. reflexivity.
Qed.

Lemma accepted_suffix e1 e2 fl :
  accepted (e1 ++ e2) fl = true -> accepted e2 fl = true.
Proof.
  unfold accepted. rewrite !forallb_app.
  destruct (forallb _ e1), (forallb _ e2); cbn; try discriminate;
    destruct (String.eqb _ ""); cbn; try reflexivity; try discriminate;
    destruct (Nat.leb _ 1); cbn; try discriminate;
    destruct (forallb _ e1), (forallb _ e2); cbn; try discriminate; reflexivity.
Qed.

(** What a flag set takes after other flags, it takes without them. *)
Lemma acceptedAll_suffix l : forall e1 e2,
  acceptedAll (e1 ++ e2) l = true -> acceptedAll e2 l = true.
Proof.
  induction l as [|x r IH]; intros e1 e2; cbn [acceptedAll]; [reflexivity|].
  intros H. apply andb_true_iff in H as [Hx Hr].
  rewrite (accepted_suffix _ _ _ Hx). cbn [andb].
  rewrite <- app_assoc in Hr. exact (IH _ _ Hr).
Qed.

(** ** The walk and the flags a description calls for *)

Lemma properName_spec nm :
  properName nm = negb (String.eqb nm "" || String.eqb nm "-").
Proof.
  destruct nm as [|a r]; [reflexivity|].
  destruct a as [[] [] [] [] [] [] [] []]; destruct r; reflexivity.
Qed.

Lemma properName_named f : named f <-> properName (nameTag f) = true.
Proof.
  rewrite properName_spec. unfold named.
  destruct (String.eqb_spec (nameTag f) ""), (String.eqb_spec (nameTag f) "-");
    cbn; split; try discriminate; try tauto; intros [H1 H2]; contradiction.
Qed.

Lemma qualify_dotted prefix nm : config.qualify prefix nm = dotted prefix nm.
Proof. destruct prefix; reflexivity. Qed.

Lemma plannedFlags_cons path f r :
  plannedFlags path (reflect.TStruct (f :: r)) =
  (plannedOfField path f ++ plannedFlags path (reflect.TStruct r))%list.
Proof.
  unfold plannedOfField. cbn [plannedFlags flat_map].
  rewrite app_nil_r. reflexivity.
Qed.

Lemma plannedFlags_app path l1 l2 :
  plannedFlags path (reflect.TStruct (l1 ++ l2)) =
  (plannedFlags path (reflect.TStruct l1) ++ plannedFlags path (reflect.TStruct l2))%list.
Proof. cbn [plannedFlags]. apply flat_map_app. Qed.

Lemma hasUnsupportedField_cons f r :
  hasUnsupportedField (reflect.TStruct (f :: r)) =
  fieldUnsupported f || hasUnsupportedField (reflect.TStruct r).
Proof.
  unfold fieldUnsupported. cbn [hasUnsupportedField existsb].
  rewrite orb_false_r. reflexivity.
Qed.

Lemma hasUnsupportedField_app l1 l2 :
  hasUnsupportedField (reflect.TStruct (l1 ++ l2)) =
  hasUnsupportedField (reflect.TStruct l1) || hasUnsupportedField (reflect.TStruct l2).
Proof. cbn [hasUnsupportedField]. apply existsb_app. Qed.

Lemma parseField_iff f :
  walkSpec (reflect.fieldType f) ->
  forall prefix fs fs',
    parseField prefix f fs = Ok fs' <->
    fieldUnsupported f = false /\
    acceptedAll (pflag.formal fs) (plannedOfField prefix f) = true /\
    fs' = extend fs (plannedOfField prefix f).
Proof.
  intros HT prefix fs fs'.
  unfold parseField, fieldUnsupported, plannedOfField, config.skipped.
  cbn [hasUnsupportedField plannedFlags existsb flat_map].
  rewrite orb_false_r, app_nil_r, qualify_dotted, properName_spec.
  destruct (fieldKind f) eqn:Hk;
    try rewrite bool_decide_eq_false_2 by discriminate;
    try rewrite bool_decide_eq_true_2 by reflexivity;
    rewrite ?andb_true_r, ?andb_false_r;
    cbn [primitiveKind documentedDefault negb andb];
    try (destruct (String.eqb (nameTag f) "" || String.eqb (nameTag f) "-");
         cbn [negb acceptedAll andb];
         [ rewrite extend_nil; split;
           [intros [= <-]; repeat split | intros (_ & _ & ->); reflexivity]
         | first
             [ split; [discriminate | intros ([=] & _)]
             | unfold pflag.StringP, pflag.BoolP, pflag.UintP, pflag.Uint64P,
                 pflag.IntP, pflag.Int64P, pflag.Float64P, pflag.StringSliceP;
               rewrite define_spec, andb_true_r; tauto ] ]).
  rewrite (HT (dotted prefix (nameTag f)) fs fs'). unfold fieldKind in Hk. tauto.
Qed.

Lemma parseFields_iff l :
  Forall (fun f => walkSpec (reflect.fieldType f)) l ->
  forall prefix fs fs',
    parseFields prefix l fs = Ok fs' <->
    hasUnsupportedField (reflect.TStruct l) = false /\
    acceptedAll (pflag.formal fs) (plannedFlags prefix (reflect.TStruct l)) = true /\
    fs' = extend fs (plannedFlags prefix (reflect.TStruct l)).
Proof.
  induction 1 as [|f r Hf _ IH]; intros prefix fs fs'.
  - cbn. rewrite extend_nil. split; [intros [= <-]; repeat split|intros (_ & _ & ->); reflexivity].
  - rewrite parseFields_cons, plannedFlags_cons, hasUnsupportedField_cons,
      acceptedAll_app, orb_false_iff, andb_true_iff.
    pose proof (parseField_iff f Hf prefix fs) as HF.
    destruct (parseField prefix f fs) as [fs1|msg]; cbn [bindE].
    + destruct (proj1 (HF fs1) eq_refl) as (Hu & Ha & ->).
      rewrite (IH prefix _ fs'), extend_extend. cbn [extend pflag.formal]. tauto.
    + split; [discriminate|]. intros ((Hu & _) & (Ha & _) & _).
      discriminate (proj2 (HF (extend fs (plannedOfField prefix f))) (conj Hu (conj Ha eq_refl))).
Qed.

Lemma walk_iff t : walkSpec t.
Proof.
  induction t as [t Hk|l IH] using Type_nested_ind; intros prefix fs fs'.
  - split; [|intros (H & _); contradiction].
    destruct t; try discriminate. contradiction Hk; reflexivity.
  - change (config.parseStructToFlags prefix (reflect.TStruct l) fs)
      with (parseFields prefix l fs).
    rewrite (parseFields_iff l IH). cbn [reflect.kind]. tauto.
Qed.

Lemma panics_not_ok {A} (m : Exec A) : panics m <-> forall a, m <> Ok a.
Proof.
  destruct m as [a|msg]; cbn; split; try tauto.
  - intros H. apply (H a). reflexivity.
  - intros _ a. discriminate.
Qed.

(** The flags a walk defines on an empty flag set. *)
Lemma flagsOfType_iff prefix t l :
  flagsOfType prefix t = Ok l <->
  reflect.kind t = reflect.Struct /\ hasUnsupportedField t = false /\
  acceptedAll [] (plannedFlags prefix t) = true /\ l = plannedFlags prefix t.
Proof.
  unfold flagsOfType.
  pose proof (walk_iff t prefix (pflag.NewFlagSet "")) as H.
  destruct (config.parseStructToFlags prefix t (pflag.NewFlagSet "")) as [fs|msg];
    cbn [bindE].
  - destruct (proj1 (H fs) eq_refl) as (Hk & Hu & Ha & ->). cbn in *.
    split; [intros [= <-]; repeat split; assumption | intros (_ & _ & _ & ->); reflexivity].
  - split; [discriminate|]. intros (Hk & Hu & Ha & _).
    discriminate (proj2 (H _) (conj Hk (conj Hu (conj Ha eq_refl)))).
Qed.

(** A walk that returns on a flag set returns on the empty one, and adds
    to the set what it defines on the empty one. *)
Lemma walk_appends prefix t fs fs' :
  config.parseStructToFlags prefix t fs = Ok fs' ->
  flagsOfType prefix t = Ok (plannedFlags prefix t) /\
  fs' = extend fs (plannedFlags prefix t).
Proof.
  intros H. apply walk_iff in H as (Hk & Hu & Ha & ->).
  split; [|reflexivity]. apply flagsOfType_iff. repeat split; try assumption.
  apply (acceptedAll_suffix _ (pflag.formal fs) []). rewrite app_nil_r. exact Ha.
Qed.

(** ** Registration of a single field *)

Lemma acceptedAll_empty e l : acceptedAll e l = true -> acceptedAll [] l = true.
Proof.
  intros H. apply (acceptedAll_suffix l e []). rewrite app_nil_r. exact H.
Qed.

Lemma primitive_default k :
  primitiveKind k = true -> exists d, documentedDefault k = Some d.
Proof. destruct k; try discriminate; intros _; eexists; reflexivity. Qed.

Lemma plannedOfField_primitive path f d :
  named f -> documentedDefault (fieldKind f) = Some d ->
  fieldUnsupported f = false /\
  plannedOfField path f =
  [pflag.mkFlag (dotted path (nameTag f)) (shortTag f) (descTag f) d false].
Proof.
  intros Hn Hd. apply properName_named in Hn.
  unfold fieldUnsupported, plannedOfField.
  cbn [hasUnsupportedField plannedFlags existsb flat_map].
  rewrite Hn, orb_false_r, app_nil_r.
  destruct (fieldKind f); try discriminate Hd; cbn in Hd |- *;
    injection Hd as <-; split; reflexivity.
Qed.

Lemma flagsOfType_fields prefix l e :
  hasUnsupportedField (reflect.TStruct l) = false ->
  acceptedAll e (plannedFlags prefix (reflect.TStruct l)) = true ->
  flagsOfType prefix (reflect.TStruct l) = Ok (plannedFlags prefix (reflect.TStruct l)).
Proof.
  intros Hu Ha. apply flagsOfType_iff.
  repeat split; [exact Hu | exact (acceptedAll_empty _ _ Ha)].
Qed.

(** C5: a field of a primitive kind (string, bool, int, int64, uint,
    uint64, float64, slice, map) whose name tag is neither empty nor "-"
    gets exactly one flag.  When the walk of a struct that holds the
    field returns, the flag set has grown by the flags of the fields
    before it, this one flag, and the flags of the fields after it, in
    this order.  The flag carries the dotted name of the field (the name
    tag, after the prefix and a dot when there is a prefix), the short
    and description tags, and the documented default of the kind as
    value, not changed.  The walk of the field returns whenever the flag
    set takes a flag of this name and shorthand. *)
Theorem primitive_field_registers_one_flag
    (prefix : string) (before after : list reflect.StructField)
    (f : reflect.StructField) (fs : pflag.FlagSet) :
  primitiveKind (fieldKind f) = true ->
  named f ->
  exists d,
    documentedDefault (fieldKind f) = Some d /\
    (forall fs',
        config.parseStructToFlags prefix (reflect.TStruct (before ++ f :: after)) fs
        = Ok fs' ->
        exists lb la,
          flagsOfType prefix (reflect.TStruct before) = Ok lb /\
          flagsOfType prefix (reflect.TStruct after) = Ok la /\
          fs' = extend fs
                  (lb ++
                   pflag.mkFlag
                     (if String.eqb prefix "" then nameTag f
                      else prefix ++ "." ++ nameTag f)
                     (shortTag f) (descTag f) d false :: la)) /\
    (forall fs0,
        config.parseStructToFlags prefix (reflect.TStruct before) fs = Ok fs0 ->
        pflag.rejects fs0
          (if String.eqb prefix "" then nameTag f else prefix ++ "." ++ nameTag f)
          (shortTag f) = None ->
        config.parseStructToFlags prefix (reflect.TStruct (before ++ [f])) fs =
        Ok (extend fs0
              [pflag.mkFlag
                 (if String.eqb prefix "" then nameTag f
                  else prefix ++ "." ++ nameTag f)
                 (shortTag f) (descTag f) d false])).
Proof.
  intros Hk Hn. destruct (primitive_default _ Hk) as (d & Hd).
  exists d. split; [exact Hd|].
  destruct (plannedOfField_primitive prefix f d Hn Hd) as (Hu & Hp).
  assert (Hname : (if String.eqb prefix "" then nameTag f
                   else prefix ++ "." ++ nameTag f) = dotted prefix (nameTag f)).
  { destruct prefix; reflexivity. }
  rewrite Hname. split.
  - intros fs' H. apply walk_iff in H as (_ & Hun & Ha & ->).
    rewrite plannedFlags_app, plannedFlags_cons, Hp in Ha |- *.
    rewrite hasUnsupportedField_app, hasUnsupportedField_cons in Hun.
    apply orb_false_iff in Hun as (Hub & Hua). apply orb_false_iff in Hua as (_ & Hua).
    rewrite acceptedAll_app in Ha. apply andb_true_iff in Ha as (Hab & Haa).
    cbn [app acceptedAll] in Haa. apply andb_true_iff in Haa as (_ & Haa).
    exists (plannedFlags prefix (reflect.TStruct before)),
           (plannedFlags prefix (reflect.TStruct after)).
    split; [exact (flagsOfType_fields _ _ _ Hub Hab)|].
    split; [exact (flagsOfType_fields _ _ _ Hua Haa)|reflexivity].
  - intros fs0 Hb Hr.
    change (config.parseStructToFlags prefix (reflect.TStruct (before ++ [f])) fs)
      with (parseFields prefix (before ++ [f]) fs).
    rewrite parseFields_app. unfold parseFields at 1. rewrite Hb. cbn [bindE].
    apply walk_iff. cbn [reflect.kind].
    rewrite hasUnsupportedField_cons, plannedFlags_cons, Hp, Hu.
    cbn [plannedFlags flat_map app acceptedAll hasUnsupportedField existsb orb].
    rewrite andb_true_r. repeat split.
    apply (rejects_accepted fs0 _ _ (descTag f) d). exact Hr.
Qed.

Lemma primitive_field_registers_one_flag_witness :
  exists d,
    documentedDefault (fieldKind portField) = Some d /\
    (forall fs',
        config.parseStructToFlags "server"
          (reflect.TStruct ([hostField] ++ portField :: [labelsField]))
          (pflag.NewFlagSet "app") = Ok fs' ->
        exists lb la,
          flagsOfType "server" (reflect.TStruct [hostField]) = Ok lb /\
          flagsOfType "server" (reflect.TStruct [labelsField]) = Ok la /\
          fs' = extend (pflag.NewFlagSet "app")
                  (lb ++
                   pflag.mkFlag
                     (if String.eqb "server" "" then nameTag portField
                      else "server" ++ "." ++ nameTag portField)
                     (shortTag portField) (descTag portField) d false :: la)) /\
    (forall fs0,
        config.parseStructToFlags "server" (reflect.TStruct [hostField])
          (pflag.NewFlagSet "app") = Ok fs0 ->
        pflag.rejects fs0
          (if String.eqb "server" "" then nameTag portField
           else "server" ++ "." ++ nameTag portField)
          (shortTag portField) = None ->
        config.parseStructToFlags "server"
          (reflect.TStruct ([hostField] ++ [portField])) (pflag.NewFlagSet "app") =
        Ok (extend fs0
              [pflag.mkFlag
                 (if String.eqb "server" "" then nameTag portField
                  else "server" ++ "." ++ nameTag portField)
                 (shortTag portField) (descTag portField) d false])).
Proof.
  apply (primitive_field_registers_one_flag "server" [hostField] [labelsField]
           portField (pflag.NewFlagSet "app")).
  - reflexivity.
  - split; discriminate.
Defined.

(** The walk of the sample: host, port and labels under [server]. *)
Example server_fields_flags :
  config.parseStructToFlags "server"
    (reflect.TStruct [hostField; portField; labelsField]) (pflag.NewFlagSet "app") =
  Ok (pflag.mkFlagSet "app"
        [pflag.mkFlag "server.host" "" "host name" (pflag.stringValue "") false;
         pflag.mkFlag "server.port" "p" "port to listen on" (pflag.intValue 0) false;
         pflag.mkFlag "server.labels" "" "" (pflag.stringSliceValue []) false]).
Proof. reflexivity. Qed.

(** C6: a field whose name tag is empty or "-" and whose kind is not
    struct defines no flag, whatever its kind, and the walk of the struct
    yields what it yields without the field. *)
Theorem unnamed_field_is_skipped
    (prefix : string) (before after : list reflect.StructField)
    (f : reflect.StructField) (fs : pflag.FlagSet) :
  nameTag f = "" \/ nameTag f = "-" ->
  fieldKind f <> reflect.Struct ->
  (forall fs1, parseField prefix f fs1 = Ok fs1) /\
  parseFields prefix (before ++ f :: after) fs =
  parseFields prefix (before ++ after) fs.
Proof.
  intros Hn Hk.
  assert (Hskip : forall fs1, parseField prefix f fs1 = Ok fs1).
  { intros fs1. unfold parseField. rewrite (skipped_unnamed _ Hn Hk). reflexivity. }
  split; [exact Hskip|].
  rewrite !parseFields_app.
  destruct (parseFields prefix before fs) as [fs1|msg]; cbn [bindE]; [|reflexivity].
  rewrite parseFields_cons, Hskip. reflexivity.
Qed.

Lemma unnamed_field_is_skipped_witness :
  (forall fs1, parseField "server" doneField fs1 = Ok fs1) /\
  parseFields "server" ([hostField] ++ doneField :: [portField]) (pflag.NewFlagSet "app") =
  parseFields "server" ([hostField] ++ [portField]) (pflag.NewFlagSet "app").
Proof.
  apply (unnamed_field_is_skipped "server" [hostField] [portField] doneField
           (pflag.NewFlagSet "app")).
  - right. reflexivity.
  - discriminate.
Defined.

(** ** Nested structs *)

Lemma dotted_described path nm :
  properName nm = true -> dotted path nm = describedName path nm.
Proof.
  rewrite properName_spec. unfold describedName.
  destruct (String.eqb nm "" || String.eqb nm "-"); [discriminate|].
  intros _. destruct path; reflexivity.
Qed.

(** Where every struct field has a proper name tag, the flags the
    description calls for carry the names of the description. *)
Lemma planned_names_described t :
  forall path,
    structsNamed t = true -> hasUnsupportedField t = false ->
    List.map pflag.Name (plannedFlags path t) = describedNames path t.
Proof.
  induction t as [t Hk|l IH] using Type_nested_ind; intros path.
  - destruct t; try reflexivity. contradiction Hk; reflexivity.
  - cbn [structsNamed hasUnsupportedField plannedFlags describedNames].
    induction IH as [|f r Hf _ IHr]; [reflexivity|].
    cbn [forallb existsb flat_map]. intros Hs Hu.
    apply andb_true_iff in Hs as (Hsf & Hsr).
    apply orb_false_iff in Hu as (Huf & Hur).
    rewrite map_app, (IHr Hsr Hur). f_equal.
    pose proof (properName_spec (nameTag f)) as Hps.
    destruct (fieldKind f) eqn:Hkf; cbn [documentedDefault primitiveKind negb] in *;
      try (destruct (String.eqb (nameTag f) "" || String.eqb (nameTag f) "-");
           cbn [negb] in Hps; rewrite Hps in Huf |- *; cbn [negb andb] in *;
           [ reflexivity
           | first [ discriminate Huf
                   | cbn [List.map pflag.Name]; rewrite (dotted_described _ _ Hps);
                     reflexivity ] ]).
    apply andb_true_iff in Hsf as (Hp & Hsf).
    rewrite (dotted_described _ _ Hp). apply (Hf _ Hsf Huf).
Qed.

(** C4 fails on the code.  In the description

    [struct { Server struct { Listener struct { Host string `name:"host"`;
    Port int `name:"port"` }; Labels map[string]string `name:"labels"` }
    `name:"server"` }]

    the struct field [Listener] has no name tag and stands under the
    prefix [server]: its children are to appear under that prefix, as
    [server.host] and [server.port], and the walk names them
    [server..host] and [server..port]; with the name tag "-" it names them
    [server.-.host] and [server.-.port].  At top level the same field
    without a name tag does yield [host] and [port], and where every
    struct field has a proper name tag the names of a walk that returns
    are those of the description. *)
Theorem unnamed_struct_under_prefix_gets_empty_segment :
  flagNames "" rootConfig = Ok ["server..host"; "server..port"; "server.labels"]
  /\ describedNames "" rootConfig = ["server.host"; "server.port"; "server.labels"]
  /\ flagNames "server" (reflect.TStruct [dashField])
     = Ok ["server.-.host"; "server.-.port"]
  /\ describedNames "server" (reflect.TStruct [dashField])
     = ["server.host"; "server.port"]
  /\ flagNames "" (reflect.TStruct [embeddedField]) = Ok ["host"; "port"]
  /\ describedNames "" (reflect.TStruct [embeddedField]) = ["host"; "port"]
  /\ (forall prefix t l,
        structsNamed t = true ->
        flagNames prefix t = Ok l -> l = describedNames prefix t).
Proof.
  repeat split; try reflexivity.
  intros prefix t l Hs. unfold flagNames.
  destruct (flagsOfType prefix t) as [x|msg] eqn:Hx; cbn [bindE]; [|discriminate].
  intros [= <-]. apply flagsOfType_iff in Hx as (_ & Hu & _ & ->).
  apply planned_names_described; assumption.
Qed.

(** ** Aborts of the registration *)






(** ** Unmarshal *)

(** Once the decoder is built, the result of the decoding pass has no
    part in what [Unmarshal] returns. *)
Lemma unmarshal_ignores_decode_result (w : World) (mgr : config.Manager)
    (t : reflect.Type_) (r : option error) :
  decode w
    (mapstructure.mkDecoderConfig "name" (Some (reflect.TPointer t))
       (Some hooks.stringSliceToStringMapHookFunc))
    (viper.AllSettings w (config.viper mgr)) = Ok r ->
  config.Unmarshal w mgr (Some (reflect.TPointer t)) = Ok None.
Proof. intros H. unfold config.Unmarshal. cbn. rewrite H. reflexivity. Qed.

Lemma unmarshal_nohook_ignores_decode_result (w : World) (mgr : config.Manager)
    (t : reflect.Type_) (r : option error) :
  decode w
    (mapstructure.mkDecoderConfig "name" (Some (reflect.TPointer t)) None)
    (viper.AllSettings w (config.viper mgr)) = Ok r ->
  config_nohook.Unmarshal w mgr (Some (reflect.TPointer t)) = Ok None.
Proof. intros H. unfold config_nohook.Unmarshal. cbn. rewrite H. reflexivity. Qed.

(** C1 fails on the code: the config file gives [labels] the sequence
    [["bad"]], the decoding pass into [*struct { Labels map[string]string }]
    fails with the error of the hook, and [Unmarshal] returns nil. *)
Theorem unmarshal_drops_decode_error :
  viper.AllSettings badLabelsWorld (config.viper (managerAfterFile badLabelsWorld))
    = {[ "labels" := AStrings ["bad"] ]}
  /\ decode badLabelsWorld
       (mapstructure.mkDecoderConfig "name" labelsResult
          (Some hooks.stringSliceToStringMapHookFunc))
       (viper.AllSettings badLabelsWorld
          (config.viper (managerAfterFile badLabelsWorld)))
     = Ok (Some "Invalid format for input bad")
  /\ config.Unmarshal badLabelsWorld (managerAfterFile badLabelsWorld) labelsResult
     = Ok None.
Proof. repeat split; vm_compute; reflexivity. Qed.

(** ** The decode hook *)

Lemma substring_all (s : string) : substring 0 (String.length s) s = s.
Proof. induction s as [|a s IH]; [reflexivity|]. cbn. rewrite IH. reflexivity. Qed.

Lemma sliceTo_zero (s : string) : strings.sliceTo s 0 = "".
Proof. destruct s; reflexivity. Qed.

(** [SplitN(s, "=", 2)] cuts at the first ['='], if there is one. *)
Lemma SplitN_cut (s : string) :
  strings.SplitN_eq_2 s =
  match cutAtFirstEq s with
  | Some (k, v) => [k; v]
  | None => [s]
  end.
Proof.
  unfold strings.SplitN_eq_2.
  induction s as [|a s IH]; [reflexivity|].
  cbn [strings.IndexByte cutAtFirstEq]. unfold strings.eqChar in *.
  destruct (Ascii.eqb a "="%char).
  - unfold strings.sliceTo, strings.sliceFrom. cbn.
    rewrite Nat.sub_0_r, substring_all. reflexivity.
  - destruct (strings.IndexByte s "="%char) as [m|];
      destruct (cutAtFirstEq s) as [[k v]|]; try discriminate IH; [|reflexivity].
    injection IH as Hk Hv.
    unfold strings.sliceTo, strings.sliceFrom in *. cbn.
    rewrite Hk, Hv. reflexivity.
Qed.

Lemma cut_none_count (s : string) : cutAtFirstEq s = None <-> countEq s = 0.
Proof.
  induction s as [|a s IH]; cbn; [tauto|].
  destruct (Ascii.eqb a "="%char); cbn.
  - split; discriminate.
  - destruct (cutAtFirstEq s) as [[k v]|].
    + split; [discriminate|]. intros H. apply IH in H. discriminate.
    + split; [intros _; apply IH; reflexivity | reflexivity].
Qed.

(** The guard of the hook lets through exactly a slice of strings with
    a map of string values as target. *)
Lemma notSliceToMap_spec f t :
  hooks.notSliceToMap f t = Ok (negb (sliceOfStrings f && mapWithStringValues t)).
Proof.
  unfold hooks.notSliceToMap, hooks.orElse, hooks.kindIsNot.
  destruct f as [b|n e|e| | |k e|e|e|l]; try reflexivity; [destruct b; reflexivity|].
  cbn. destruct (bool_decide (reflect.kind e = reflect.String)); cbn; [|reflexivity].
  destruct t as [b|n e'|e'| | |k e'|e'|e'|l]; try reflexivity.
  destruct b; reflexivity.
Qed.

Lemma fillMap_ok sl :
  Forall (fun s => 0 < countEq s) sl ->
  forall m, exists m',
    hooks.fillMap sl m = (AStringMap m', None) /\
    forall k, m' !! k = match lastValue k sl with Some v => Some v | None => m !! k end.
Proof.
  induction 1 as [|s rest Hs _ IH]; intros m.
  - exists m. split; reflexivity.
  - cbn [hooks.fillMap lastValue]. rewrite SplitN_cut.
    destruct (cutAtFirstEq s) as [[k0 v0]|] eqn:Hcut.
    + destruct (IH (<[k0 := v0]> m)) as (m' & Hm' & Hlook).
      exists m'. split; [exact Hm'|]. intros k. rewrite Hlook.
      destruct (lastValue k rest); [reflexivity|].
      destruct (String.eqb k0 k) eqn:Hk.
      * apply String.eqb_eq in Hk. subst. apply lookup_insert_eq.
      * apply String.eqb_neq in Hk. apply lookup_insert_ne. exact Hk.
    + apply cut_none_count in Hcut. lia.
Qed.

Lemma fillMap_error sl :
  forall m,
    snd (hooks.fillMap sl m) = hooks.invalidFormat <$> firstWithoutEq sl /\
    (snd (hooks.fillMap sl m) <> None -> fst (hooks.fillMap sl m) = ANil).
Proof.
  induction sl as [|s rest IH]; intros m; [split; [reflexivity|intros H; contradiction H; reflexivity]|].
  cbn [hooks.fillMap firstWithoutEq List.find]. rewrite SplitN_cut.
  destruct (cutAtFirstEq s) as [[k0 v0]|] eqn:Hcut.
  - assert (Hc : Nat.eqb (countEq s) 0 = false).
    { apply Nat.eqb_neq. intros H0. apply cut_none_count in H0. congruence. }
    rewrite Hc. apply IH.
  - apply cut_none_count in Hcut. rewrite Hcut. cbn. split; reflexivity.
Qed.

Lemma firstWithoutEq_Some sl :
  is_Some (firstWithoutEq sl) <-> Exists (fun s => countEq s = 0) sl.
Proof.
  unfold firstWithoutEq. induction sl as [|s rest IH]; cbn.
  - split; [intros [x Hx]; discriminate | intros H; inversion H].
  - destruct (Nat.eqb (countEq s) 0) eqn:Hc.
    + split; [intros _; left; apply Nat.eqb_eq, Hc | intros _; eexists; reflexivity].
    + rewrite IH. split; [intros H; right; exact H|].
      intros H. inversion H as [? ? H0|? ? H0]; subst; [|exact H0].
      apply Nat.eqb_neq in Hc. contradiction.
Qed.

(** C2: on a sequence of strings that each contain an ['='], with a map
    of string values as target, the hook returns without error the map
    in which every key has the value of the last element that carries it,
    key and value being what stands before and after the first ['='] of
    the element; [["a=1","b=2"]] gives [{a:"1", b:"2"}] and
    [["a=1","a=2"]] gives [{a:"2"}]. *)
Theorem hook_builds_last_wins_map
    (f t : reflect.Type_) (sl : list string) :
  sliceOfStrings f = true ->
  mapWithStringValues t = true ->
  Forall (fun s => 0 < countEq s) sl ->
  (exists m,
      hooks.stringSliceToStringMapHookFunc f t (AStrings sl)
        = Ok (AStringMap m, None) /\
      forall k, m !! k = lastValue k sl)
  /\ hooks.stringSliceToStringMapHookFunc stringSlice stringMap
       (AStrings ["a=1"; "b=2"])
     = Ok (AStringMap {[ "a" := "1"; "b" := "2" ]}, None)
  /\ hooks.stringSliceToStringMapHookFunc stringSlice stringMap
       (AStrings ["a=1"; "a=2"])
     = Ok (AStringMap {[ "a" := "2" ]}, None).
Proof.
  intros Hf Ht Hsl. split; [|split; vm_compute; reflexivity].
  unfold hooks.stringSliceToStringMapHookFunc.
  rewrite notSliceToMap_spec, Hf, Ht. cbn [andb negb bindE].
  destruct (fillMap_ok sl Hsl ∅) as (m & Hm & Hlook).
  exists m. split; [rewrite Hm; reflexivity|].
  intros k. rewrite Hlook, lookup_empty.
  destruct (lastValue k sl); reflexivity.
Qed.

Lemma hook_builds_last_wins_map_witness :
  (exists m,
      hooks.stringSliceToStringMapHookFunc stringSlice stringMap
        (AStrings ["region=eu"; "tier=a=b"; "region=us"])
        = Ok (AStringMap m, None) /\
      forall k, m !! k = lastValue k ["region=eu"; "tier=a=b"; "region=us"])
  /\ hooks.stringSliceToStringMapHookFunc stringSlice stringMap
       (AStrings ["a=1"; "b=2"])
     = Ok (AStringMap {[ "a" := "1"; "b" := "2" ]}, None)
  /\ hooks.stringSliceToStringMapHookFunc stringSlice stringMap
       (AStrings ["a=1"; "a=2"])
     = Ok (AStringMap {[ "a" := "2" ]}, None).
Proof.
  apply (hook_builds_last_wins_map stringSlice stringMap
           ["region=eu"; "tier=a=b"; "region=us"]).
  - reflexivity.
  - reflexivity.
  - repeat constructor.
Defined.

Lemma firstWithoutEq_None sl :
  firstWithoutEq sl = None -> Forall (fun s => 0 < countEq s) sl.
Proof.
  unfold firstWithoutEq. induction sl as [|s r IH]; cbn; [constructor|].
  destruct (Nat.eqb (countEq s) 0) eqn:Hc; [discriminate|].
  intros H. constructor; [|apply IH, H]. apply Nat.eqb_neq in Hc. lia.
Qed.

(** C3, as the code has it: with a slice of strings as source and a map
    of string values as target the hook returns normally; its error is
    the format error naming the first element that contains no ['='], and
    nil when every element contains one, so there is an error exactly
    when some element has no ['=']; with the error comes no value.
    Without an error the value is the map that gives every key the value
    of the last element whose text before its first ['='] is the key, the
    value being all that follows this first ['='], further ['='] included,
    and that holds no other key. *)
Theorem hook_error_iff_element_without_eq
    (f t : reflect.Type_) (sl : list string) :
  sliceOfStrings f = true ->
  mapWithStringValues t = true ->
  exists r,
    hooks.stringSliceToStringMapHookFunc f t (AStrings sl) = Ok r /\
    snd r = hooks.invalidFormat <$> firstWithoutEq sl /\
    (is_Some (snd r) <-> Exists (fun s => countEq s = 0) sl) /\
    (snd r <> None -> fst r = ANil) /\
    (snd r = None ->
       exists m, fst r = AStringMap m /\ forall k, m !! k = lastValue k sl).
Proof.
  intros Hf Ht. unfold hooks.stringSliceToStringMapHookFunc.
  rewrite notSliceToMap_spec, Hf, Ht. cbn [andb negb bindE].
  exists (hooks.fillMap sl ∅).
  destruct (fillMap_error sl ∅) as [Herr Hval].
  split; [reflexivity|]. split; [exact Herr|]. split; [|split; [exact Hval|]].
  - rewrite Herr, <- firstWithoutEq_Some.
    destruct (firstWithoutEq sl); cbn; split; intros [x Hx]; try discriminate;
      eexists; reflexivity.
  - rewrite Herr. destruct (firstWithoutEq sl) eqn:Hfirst; [discriminate|].
    intros _. destruct (fillMap_ok sl (firstWithoutEq_None sl Hfirst) ∅)
      as (m & Hm & Hlook).
    exists m. rewrite Hm. split; [reflexivity|].
    intros k. rewrite Hlook. destruct (lastValue k sl); [reflexivity|].
    apply lookup_empty.
Qed.

Lemma hook_error_iff_element_without_eq_witness :
  (exists r,
    hooks.stringSliceToStringMapHookFunc stringSlice stringMap
      (AStrings ["a=1"; "bad"; "worse"]) = Ok r /\
    snd r = hooks.invalidFormat <$> firstWithoutEq ["a=1"; "bad"; "worse"] /\
    (is_Some (snd r) <-> Exists (fun s => countEq s = 0) ["a=1"; "bad"; "worse"]) /\
    (snd r <> None -> fst r = ANil) /\
    (snd r = None ->
       exists m, fst r = AStringMap m /\
                 forall k, m !! k = lastValue k ["a=1"; "bad"; "worse"]))
  /\
  (exists r,
    hooks.stringSliceToStringMapHookFunc stringSlice stringMap
      (AStrings ["a=1"; "b=2=3"; "a=4"]) = Ok r /\
    snd r = hooks.invalidFormat <$> firstWithoutEq ["a=1"; "b=2=3"; "a=4"] /\
    (is_Some (snd r) <-> Exists (fun s => countEq s = 0) ["a=1"; "b=2=3"; "a=4"]) /\
    (snd r <> None -> fst r = ANil) /\
    (snd r = None ->
       exists m, fst r = AStringMap m /\
                 forall k, m !! k = lastValue k ["a=1"; "b=2=3"; "a=4"])).
Proof.
  split.
  - apply (hook_error_iff_element_without_eq stringSlice stringMap
             ["a=1"; "bad"; "worse"]); reflexivity.
  - apply (hook_error_iff_element_without_eq stringSlice stringMap
             ["a=1"; "b=2=3"; "a=4"]); reflexivity.
Defined.

(** The hook on a sequence with a repeated key and an element with two
    ['=']. *)
Example hook_on_repeated_key :
  hooks.stringSliceToStringMapHookFunc stringSlice stringMap
    (AStrings ["a=1"; "b=2=3"; "a=4"])
  = Ok (AStringMap (<["a" := "4"]> (<["b" := "2=3"]> (<["a" := "1"]> ∅))), None).
Proof. reflexivity. Qed.

(** C3 as stated does not hold: an element with two ['='] is accepted,
    its value being all that follows the first. *)
Lemma hook_accepts_more_than_one_eq :
  ~ (forall sl,
        (exists v e,
            hooks.stringSliceToStringMapHookFunc stringSlice stringMap (AStrings sl)
            = Ok (v, Some e))
        <-> Exists (fun s => countEq s <> 1) sl).
Proof.
  intros H. destruct (H ["a=b=c"]) as [_ Hback].
  destruct Hback as (v & e & He).
  - left. cbn. discriminate.
  - vm_compute in He. discriminate He.
Qed.

(** C10: when the source is not a slice of strings or the target is not
    a map of string values, the hook returns the data it was given, with
    no error, whatever the data. *)
Theorem hook_identity_on_other_types
    (f t : reflect.Type_) (data : any) :
  sliceOfStrings f = false \/ mapWithStringValues t = false ->
  hooks.stringSliceToStringMapHookFunc f t data = Ok (data, None).
Proof.
  intros H. unfold hooks.stringSliceToStringMapHookFunc.
  rewrite notSliceToMap_spec.
  destruct H as [-> | ->]; [|rewrite andb_false_r]; reflexivity.
Qed.

Lemma hook_identity_on_other_types_witness :
  hooks.stringSliceToStringMapHookFunc stringSlice
    (reflect.TSlice (reflect.TBasic reflect.BString)) (AStrings ["a=1"; "bad"])
  = Ok (AStrings ["a=1"; "bad"], None).
Proof.
  apply (hook_identity_on_other_types stringSlice
           (reflect.TSlice (reflect.TBasic reflect.BString)) (AStrings ["a=1"; "bad"])).
  right. reflexivity.
Defined.

(** ** Environment variables *)

Lemma mapBytes_app f (a b : string) :
  strings.mapBytes f (a ++ b) = strings.mapBytes f a ++ strings.mapBytes f b.
Proof.
  induction a as [|x a IH]; [reflexivity|].
  change (String (f x) (strings.mapBytes f (a ++ b)) =
          String (f x) (strings.mapBytes f a ++ strings.mapBytes f b)).
  rewrite IH. reflexivity.
Qed.

Lemma mapBytes_mapBytes f g (s : string) :
  strings.mapBytes f (strings.mapBytes g s) = strings.mapBytes (fun a => f (g a)) s.
Proof. induction s as [|x s IH]; cbn; [reflexivity | rewrite IH; reflexivity]. Qed.

Lemma mapBytes_ext f g (s : string) :
  (forall a, f a = g a) -> strings.mapBytes f s = strings.mapBytes g s.
Proof. intros H. induction s as [|x s IH]; cbn; [reflexivity | rewrite H, IH; reflexivity]. Qed.

Lemma upper_lower_byte a : strings.upperByte (strings.lowerByte a) = strings.upperByte a.
Proof. destruct a as [[] [] [] [] [] [] [] []]; vm_compute; reflexivity. Qed.

Lemma replace_upper_byte a :
  strings.replaceByte config.envKeyReplacer (strings.upperByte a) =
  strings.upperByte (strings.replaceByte config.envKeyReplacer a).
Proof. destruct a as [[] [] [] [] [] [] [] []]; vm_compute; reflexivity. Qed.

Lemma ToUpper_ToLower s : strings.ToUpper (strings.ToLower s) = strings.ToUpper s.
Proof.
  unfold strings.ToUpper, strings.ToLower. rewrite mapBytes_mapBytes.
  apply mapBytes_ext, upper_lower_byte.
Qed.

(** The replacer of [New] does what the description says. *)
Lemma Replace_transliterates s :
  strings.Replace config.envKeyReplacer s = transliterate s.
Proof.
  unfold strings.Replace. induction s as [|a s IH]; [reflexivity|].
  cbn [strings.mapBytes transliterate]. f_equal; [|exact IH].
  destruct a as [[] [] [] [] [] [] [] []]; vm_compute; reflexivity.
Qed.

Lemma transliterate_ToUpper s :
  transliterate (strings.ToUpper s) = strings.ToUpper (transliterate s).
Proof.
  rewrite <- !Replace_transliterates. unfold strings.Replace, strings.ToUpper.
  rewrite !mapBytes_mapBytes. apply mapBytes_ext, replace_upper_byte.
Qed.

Lemma transliterate_app a b : transliterate (a ++ b) = transliterate a ++ transliterate b.
Proof. rewrite <- !Replace_transliterates. apply mapBytes_app. Qed.

Lemma ToUpper_app a b : strings.ToUpper (a ++ b) = strings.ToUpper a ++ strings.ToUpper b.
Proof. apply mapBytes_app. Qed.

Lemma envVarOf_New owner nm :
  viper.envVarOf (config.viper (config.New owner)) nm =
  if String.eqb owner "" then strings.ToUpper (transliterate nm)
  else strings.ToUpper (transliterate owner ++ "_" ++ transliterate nm).
Proof.
  unfold viper.envVarOf, viper.envName, viper.mergeWithEnvPrefix, config.New.
  unfold viper.SetEnvPrefix, viper.SetConfigName.
  destruct (String.eqb owner "") eqn:Ho; cbn; rewrite ?Ho.
  - rewrite Replace_transliterates.
    rewrite ToUpper_ToLower. apply transliterate_ToUpper.
  - rewrite Replace_transliterates.
    rewrite transliterate_ToUpper, !transliterate_app.
    change (transliterate "_") with "_".
    rewrite !ToUpper_app. f_equal. f_equal.
    rewrite <- !transliterate_ToUpper, ToUpper_ToLower. reflexivity.
Qed.

(** C8, as the code has it, for an owning name and a dotted name of ASCII
    characters: for an owning name that is not empty, the variable of a
    dotted name is the owning name joined by ['_'] to the dotted name,
    every ['.'] and ['-'] of both replaced by ['_'], all upper-cased; this
    is the variable of the description whenever the owning name holds no
    ['.'] and no ['-'].  For an empty owning name it is the
    transliterated upper-cased dotted name alone.  The name
    [server.max-conns] with the prefix [APP] resolves from
    [APP_SERVER_MAX_CONNS]. *)
Theorem env_var_of_flag_name (owner nm : string) :
  asciiOnly owner = true ->
  asciiOnly nm = true ->
  (owner <> "" ->
     viper.envVarOf (config.viper (config.New owner)) nm =
     strings.ToUpper (transliterate owner ++ "_" ++ transliterate nm))
  /\ (owner <> "" -> transliterate owner = owner ->
       viper.envVarOf (config.viper (config.New owner)) nm = describedEnvVar owner nm)
  /\ (owner = "" ->
       viper.envVarOf (config.viper (config.New owner)) nm =
       strings.ToUpper (transliterate nm))
  /\ viper.envVarOf (config.viper (config.New "APP")) "server.max-conns"
     = "APP_SERVER_MAX_CONNS".
Proof.
  intros _ _. rewrite envVarOf_New. repeat split.
  - intros H. apply String.eqb_neq in H. rewrite H. reflexivity.
  - intros H Ht. apply String.eqb_neq in H. rewrite H. unfold describedEnvVar.
    rewrite Ht. reflexivity.
  - intros ->. reflexivity.
Qed.

Lemma env_var_of_flag_name_witness :
  viper.envVarOf (config.viper (config.New "my-app")) "server.max-conns"
    = "MY_APP_SERVER_MAX_CONNS"
  /\ viper.envVarOf (config.viper (config.New "APP")) "server.max-conns"
    = describedEnvVar "APP" "server.max-conns"
  /\ viper.envVarOf (config.viper (config.New "")) "server.max-conns"
    = "SERVER_MAX_CONNS".
Proof.
  split; [|split].
  - destruct (env_var_of_flag_name "my-app" "server.max-conns" eq_refl eq_refl)
      as (H & _).
    apply H. discriminate.
  - destruct (env_var_of_flag_name "APP" "server.max-conns" eq_refl eq_refl)
      as (_ & H & _).
    apply H; [discriminate | reflexivity].
  - destruct (env_var_of_flag_name "" "server.max-conns" eq_refl eq_refl)
      as (_ & _ & H & _).
    apply H. reflexivity.
Defined.

(** C8 as stated does not hold, also for names of ASCII characters: a
    manager with an empty owning name resolves [port] from [PORT], not
    from [_PORT], and with the owning name [my-app] it resolves [port]
    from [MY_APP_PORT], not from [MY-APP_PORT]: the ['-'] of the owning
    name is replaced as well. *)
Lemma env_var_without_owner :
  viper.envVarOf (config.viper (config.New "")) "port" = "PORT"
  /\ describedEnvVar "" "port" = "_PORT"
  /\ viper.envVarOf (config.viper (config.New "my-app")) "port" = "MY_APP_PORT"
  /\ describedEnvVar "my-app" "port" = "MY-APP_PORT"
  /\ ~ (forall owner nm,
          asciiOnly owner = true -> asciiOnly nm = true ->
          viper.envVarOf (config.viper (config.New owner)) nm
          = describedEnvVar owner nm).
Proof.
  repeat split; try reflexivity.
  intros H. specialize (H "" "port" eq_refl eq_refl). vm_compute in H. discriminate H.
Qed.

(** ** The config file *)

(** [AddConfigFlag] on a new flag set named [root]. *)
Example AddConfigFlag_root :
  config.AddConfigFlag (pflag.NewFlagSet "root") =
  Ok (pflag.mkFlagSet "root"
        [pflag.mkFlag "config" "c"
           "config file (Default; config.yml in the current directory)"
           (pflag.stringValue "./config.yml") false])
  /\ config.AddConfigFlag (pflag.NewFlagSet "root") = Ok rootFlags
  /\ config.AddConfigFlag rootFlags = Panic "root flag redefined: config".
Proof. repeat split. Qed.


Lemma ReadFromFile_eq (w : World) (mgr : config.Manager) (fs : pflag.FlagSet) :
  fst (pflag.GetString fs "config") <> "" ->
  config.ReadFromFile w mgr fs =
  match loadConfig w (fst (pflag.GetString fs "config")) with
  | inl e =>
      (Some e,
       config.mkManager (config.name mgr) (config.flags mgr)
         (viper.SetConfigFile (fst (pflag.GetString fs "config")) (config.viper mgr)))
  | inr cfg =>
      (None,
       config.mkManager (config.name mgr) (config.flags mgr)
         (viper.setConfig (cfg ∪ viper.config (config.viper mgr))
            (viper.SetConfigFile (fst (pflag.GetString fs "config"))
               (config.viper mgr))))
  end.
Proof.
  intros Hne. unfold config.ReadFromFile.
  apply String.eqb_neq in Hne. rewrite Hne. cbn [negb].
  unfold viper.MergeInConfig, viper.SetConfigFile. rewrite Hne.
  cbn [viper.configFile]. rewrite Hne.
  destruct (loadConfig w _); reflexivity.
Qed.

(** C9: with an empty value of the [config] flag, [ReadFromFile]
    returns nil and leaves the manager as it is.  With a value that is
    not empty, a failure to load the file is returned as the error and
    the settings stay as they were; a loaded file is merged into the
    config layer, so that a key resolves from a flag set on the command
    line if there is one, else from the environment if it has the
    variable, and else from the file if the file has the key. *)
Theorem read_from_file_merges_below_flags_and_env
    (w : World) (mgr : config.Manager) (fs : pflag.FlagSet) :
  (fst (pflag.GetString fs "config") = "" ->
     config.ReadFromFile w mgr fs = (None, mgr))
  /\ (fst (pflag.GetString fs "config") <> "" ->
      forall e, loadConfig w (fst (pflag.GetString fs "config")) = inl e ->
        fst (config.ReadFromFile w mgr fs) = Some e /\
        viper.AllSettings w (config.viper (snd (config.ReadFromFile w mgr fs)))
        = viper.AllSettings w (config.viper mgr))
  /\ (fst (pflag.GetString fs "config") <> "" ->
      forall cfg, loadConfig w (fst (pflag.GetString fs "config")) = inr cfg ->
        fst (config.ReadFromFile w mgr fs) = None /\
        viper.config (config.viper (snd (config.ReadFromFile w mgr fs)))
        = cfg ∪ viper.config (config.viper mgr) /\
        forall key,
          (forall x, fromFlag (config.viper mgr) key = Some x ->
             viper.find w (config.viper (snd (config.ReadFromFile w mgr fs))) key = Some x)
          /\ (fromFlag (config.viper mgr) key = None ->
              forall x, fromEnv w (config.viper mgr) key = Some x ->
                viper.find w (config.viper (snd (config.ReadFromFile w mgr fs))) key = Some x)
          /\ (fromFlag (config.viper mgr) key = None ->
              fromEnv w (config.viper mgr) key = None ->
              forall x, cfg !! key = Some x ->
                viper.find w (config.viper (snd (config.ReadFromFile w mgr fs))) key = Some x)).
Proof.
  split; [|split].
  - intros He. unfold config.ReadFromFile. rewrite He. reflexivity.
  - intros Hne e Hload. rewrite (ReadFromFile_eq _ _ _ Hne), Hload.
    split; [reflexivity|].
    cbn [snd config.viper]. unfold viper.SetConfigFile.
    destruct (String.eqb _ ""); reflexivity.
  - intros Hne cfg Hload. rewrite (ReadFromFile_eq _ _ _ Hne), Hload.
    split; [reflexivity|]. cbn [fst snd config.viper].
    unfold viper.SetConfigFile. apply String.eqb_neq in Hne. rewrite Hne.
    split; [reflexivity|].
    intros key. unfold fromFlag, fromEnv, viper.find, viper.getEnv, viper.envName,
      viper.mergeWithEnvPrefix.
    cbn [viper.setConfig viper.pflags viper.automaticEnvApplied viper.config
         viper.envKeyReplacer viper.allowEmptyEnv viper.envPrefix].
    set (env := if viper.automaticEnvApplied (config.viper mgr) then _ else None).
    destruct (viper.pflags (config.viper mgr) !! key) as [fl|];
      [destruct (pflag.Changed fl)|].
    + repeat split; [intros x H; exact H | discriminate | discriminate].
    + repeat split; [discriminate | |].
      * intros _ x Hx. destruct env as [val|]; [|discriminate Hx].
        cbn in Hx. exact Hx.
      * intros _ Hx x Hc. destruct env as [val|]; [discriminate Hx|].
        rewrite (lookup_union_Some_l cfg _ key x Hc). reflexivity.
    + repeat split; [discriminate | |].
      * intros _ x Hx. destruct env as [val|]; [|discriminate Hx].
        cbn in Hx. exact Hx.
      * intros _ Hx x Hc. destruct env as [val|]; [discriminate Hx|].
        apply lookup_union_Some_l. exact Hc.
Qed.

Lemma read_from_file_merges_below_flags_and_env_witness :
  config.ReadFromFile quietWorld (config.New "app") emptyConfigFlags
    = (None, config.New "app")
  /\ fst (config.ReadFromFile quietWorld (config.New "app")
            rootFlags)
     = Some "open: no such file or directory"
  /\ viper.find badLabelsWorld
       (config.viper
          (snd (config.ReadFromFile badLabelsWorld (config.New "app")
                  rootFlags)))
       "labels"
     = Some (AStrings ["bad"]).
Proof.
  split; [|split].
  - destruct (read_from_file_merges_below_flags_and_env quietWorld
                (config.New "app") emptyConfigFlags) as (H & _).
    apply H. reflexivity.
  - destruct (read_from_file_merges_below_flags_and_env quietWorld
                (config.New "app") rootFlags)
      as (_ & H & _).
    apply (H ltac:(discriminate) "open: no such file or directory" eq_refl).
  - destruct (read_from_file_merges_below_flags_and_env badLabelsWorld
                (config.New "app") rootFlags)
      as (_ & _ & H).
    destruct (H ltac:(discriminate) {[ "labels" := AStrings ["bad"] ]} eq_refl)
      as (_ & _ & Hkey).
    destruct (Hkey "labels") as (_ & _ & Hfile).
    apply Hfile; vm_compute; reflexivity.
Defined.

(** * Further properties *)

(** ** The walk *)

Lemma planned_pristine t : forall path, Forall pristine (plannedFlags path t).
Proof.
  induction t as [t Hk|l IH] using Type_nested_ind; intros path.
  - destruct t; try constructor. contradiction Hk; reflexivity.
  - cbn [plannedFlags]. induction IH as [|f r Hf _ IHr]; [constructor|].
    cbn [flat_map]. apply Forall_app. split; [|exact IHr].
    destruct (fieldKind f); try apply Hf;
      destruct (properName (nameTag f)); cbn; repeat constructor.
Qed.

Lemma accepted_new_name e fl :
  accepted e fl = true -> forall g, g ∈ e -> pflag.Name g <> pflag.Name fl.
Proof.
  unfold accepted. intros H g Hg. apply andb_true_iff in H as (H & _).
  rewrite forallb_forall in H. apply list_elem_of_In, H in Hg.
  apply negb_true_iff, String.eqb_neq in Hg. exact Hg.
Qed.

(** The flags a flag set takes one after the other have names that
    differ from one another and from those of the set. *)
Lemma acceptedAll_NoDup l : forall e,
  acceptedAll e l = true ->
  NoDup (List.map pflag.Name l) /\
  forall x g, x ∈ l -> g ∈ e -> pflag.Name g <> pflag.Name x.
Proof.
  induction l as [|x r IH]; intros e; cbn [acceptedAll List.map].
  - intros _. split; [constructor|]. intros x g Hx. inversion Hx.
  - intros H. apply andb_true_iff in H as (Hx & Hr).
    destruct (IH _ Hr) as (Hnd & Hne). split.
    + constructor; [|exact Hnd]. intros Hin.
      apply list_elem_of_fmap in Hin as (y & Hy & Hyr).
      apply (Hne y x Hyr); [|exact Hy].
      apply elem_of_app. right. apply list_elem_of_singleton. reflexivity.
    + intros y g Hy Hg. apply elem_of_cons in Hy as [->|Hy].
      * exact (accepted_new_name _ _ Hx g Hg).
      * apply (Hne y g Hy). apply elem_of_app. left. exact Hg.
Qed.

(** X1: a walk leaves the flags it finds as they are and in their order,
    keeps the name of the flag set, and adds at the end the flags it
    would define on an empty flag set. *)
Theorem walk_only_appends
    (prefix : string) (t : reflect.Type_) (fs fs' : pflag.FlagSet) :
  config.parseStructToFlags prefix t fs = Ok fs' ->
  pflag.name fs' = pflag.name fs /\
  exists l,
    flagsOfType prefix t = Ok l /\
    pflag.formal fs' = (pflag.formal fs ++ l)%list.
Proof.
  intros H. destruct (walk_appends _ _ _ _ H) as (Hl & ->).
  split; [reflexivity|]. exists (plannedFlags prefix t). split; [exact Hl|reflexivity].
Qed.

Lemma walk_only_appends_witness :
  pflag.name (extend (pflag.NewFlagSet "app")
                [pflag.mkFlag "host" "" "host name" (pflag.stringValue "") false])
    = pflag.name (pflag.NewFlagSet "app") /\
  exists l,
    flagsOfType "" (reflect.TStruct [hostField]) = Ok l /\
    pflag.formal (extend (pflag.NewFlagSet "app")
                    [pflag.mkFlag "host" "" "host name" (pflag.stringValue "") false])
      = (pflag.formal (pflag.NewFlagSet "app") ++ l)%list.
Proof.
  apply (walk_only_appends "" (reflect.TStruct [hostField]) (pflag.NewFlagSet "app")).
  reflexivity.
Defined.

(** X2: a walk that returns has defined, in declaration order, one flag
    for every field of a primitive kind with a proper name tag that it
    reaches, in the struct itself or through its struct fields, and no
    other flag: the flag of a field carries the name tags on the way to
    it joined by dots, its short and description tags and the default of
    its kind.  No two of these flags have the same name. *)
Theorem walk_defines_one_flag_per_leaf
    (t : reflect.Type_) (prefix : string) (l : list pflag.Flag) :
  flagsOfType prefix t = Ok l ->
  l = plannedFlags prefix t /\ NoDup (List.map pflag.Name l).
Proof.
  intros H. apply flagsOfType_iff in H as (_ & _ & Ha & ->).
  split; [reflexivity|]. exact (proj1 (acceptedAll_NoDup _ _ Ha)).
Qed.

Lemma walk_defines_one_flag_per_leaf_witness :
  [pflag.mkFlag "server..host" "" "host name" (pflag.stringValue "") false;
   pflag.mkFlag "server..port" "p" "port to listen on" (pflag.intValue 0) false;
   pflag.mkFlag "server.labels" "" "" (pflag.stringSliceValue []) false]
  = plannedFlags "" rootConfig /\
  NoDup (List.map pflag.Name
           [pflag.mkFlag "server..host" "" "host name" (pflag.stringValue "") false;
            pflag.mkFlag "server..port" "p" "port to listen on" (pflag.intValue 0) false;
            pflag.mkFlag "server.labels" "" "" (pflag.stringSliceValue []) false]).
Proof. apply (walk_defines_one_flag_per_leaf rootConfig ""). reflexivity. Defined.

(** X3: every flag a walk defines is unchanged and holds the zero value
    of its type; the walk takes no default from the description. *)
Theorem walk_defines_pristine_flags
    (t : reflect.Type_) (prefix : string) (l : list pflag.Flag) :
  flagsOfType prefix t = Ok l -> Forall pristine l.
Proof.
  intros H. apply flagsOfType_iff in H as (_ & _ & _ & ->).
  apply planned_pristine.
Qed.

Lemma walk_defines_pristine_flags_witness :
  Forall pristine
    [pflag.mkFlag "server..host" "" "host name" (pflag.stringValue "") false;
     pflag.mkFlag "server..port" "p" "port to listen on" (pflag.intValue 0) false;
     pflag.mkFlag "server.labels" "" "" (pflag.stringSliceValue []) false].
Proof. apply (walk_defines_pristine_flags rootConfig ""). reflexivity. Defined.

(** ** InitFlags *)




(** ** ReadFromFile and the config flag *)

(** X6: when the flag set has no string flag named [config], so that
    [GetString] reports an error, [ReadFromFile] says nothing of it: it
    returns nil and leaves the manager as it is. *)
Theorem read_from_file_without_config_flag
    (w : World) (mgr : config.Manager) (fs : pflag.FlagSet) :
  snd (pflag.GetString fs "config") <> None ->
  config.ReadFromFile w mgr fs = (None, mgr).
Proof.
  intros He. unfold config.ReadFromFile.
  assert (Hpath : fst (pflag.GetString fs "config") = "").
  { unfold pflag.GetString in *. destruct (pflag.Lookup fs "config") as [f|];
      [|reflexivity].
    destruct (pflag.Val f); try reflexivity. contradiction He. reflexivity. }
  rewrite Hpath. reflexivity.
Qed.

Lemma read_from_file_without_config_flag_witness :
  config.ReadFromFile badLabelsWorld (config.New "app") (pflag.NewFlagSet "root")
  = (None, config.New "app").
Proof.
  apply (read_from_file_without_config_flag badLabelsWorld (config.New "app")
           (pflag.NewFlagSet "root")).
  discriminate.
Defined.

Lemma Lookup_extend_fresh fs fl :
  pflag.Lookup fs (pflag.Name fl) = None ->
  pflag.Lookup (extend fs [fl]) (pflag.Name fl) = Some fl.
Proof.
  unfold pflag.Lookup, extend. cbn [pflag.formal].
  induction (pflag.formal fs) as [|f l IH]; cbn.
  - intros _. rewrite String.eqb_refl. reflexivity.
  - destruct (String.eqb (pflag.Name f) (pflag.Name fl)); [discriminate | exact IH].
Qed.

(** X7: on a flag set that had no [config] flag before and in which no
    flag has the shorthand [c], [AddConfigFlag] returns; and on the flag
    set it returns, as long as the flag was not set, [ReadFromFile]
    loads [./config.yml]: the failure to load it is the error returned,
    and a loaded file is merged over the config layer. *)
Theorem read_from_file_uses_default_path
    (w : World) (mgr : config.Manager) (fs : pflag.FlagSet) :
  pflag.Lookup fs "config" = None ->
  (forall f, f ∈ pflag.formal fs -> pflag.Shorthand f <> "c") ->
  exists fs',
    config.AddConfigFlag fs = Ok fs' /\
    pflag.GetString fs' "config" = ("./config.yml", None) /\
    fst (config.ReadFromFile w mgr fs') =
      match loadConfig w "./config.yml" with
      | inl e => Some e
      | inr _ => None
      end /\
    viper.config (config.viper (snd (config.ReadFromFile w mgr fs'))) =
      match loadConfig w "./config.yml" with
      | inl _ => viper.config (config.viper mgr)
      | inr cfg => cfg ∪ viper.config (config.viper mgr)
      end.
Proof.
  intros Hfresh Hshort.
  set (fl := pflag.mkFlag "config" "c"
               "config file (Default; config.yml in the current directory)"
               (pflag.stringValue "./config.yml") false).
  assert (Hadd : config.AddConfigFlag fs = Ok (extend fs [fl])).
  { unfold config.AddConfigFlag, pflag.StringP. apply define_spec.
    split; [|reflexivity]. unfold accepted. cbn [pflag.Name pflag.Shorthand].
    apply andb_true_iff. split.
    - apply find_none_forallb. exact Hfresh.
    - cbn. apply forallb_forall. intros g Hg.
      apply negb_true_iff, String.eqb_neq, Hshort, list_elem_of_In, Hg. }
  exists (extend fs [fl]). split; [exact Hadd|].
  assert (Hget : pflag.GetString (extend fs [fl]) "config" = ("./config.yml", None)).
  { unfold pflag.GetString.
    change "config" with (pflag.Name fl) at 1.
    rewrite (Lookup_extend_fresh fs fl Hfresh). reflexivity. }
  split; [exact Hget|].
  rewrite ReadFromFile_eq by (rewrite Hget; discriminate).
  rewrite Hget. cbn [fst].
  destruct (loadConfig w "./config.yml"); split; reflexivity.
Qed.

Lemma read_from_file_uses_default_path_witness :
  exists fs',
    config.AddConfigFlag (pflag.NewFlagSet "root") = Ok fs' /\
    pflag.GetString fs' "config" = ("./config.yml", None) /\
    fst (config.ReadFromFile quietWorld (config.New "app") fs') =
      match loadConfig quietWorld "./config.yml" with
      | inl e => Some e
      | inr _ => None
      end /\
    viper.config
      (config.viper (snd (config.ReadFromFile quietWorld (config.New "app") fs'))) =
      match loadConfig quietWorld "./config.yml" with
      | inl _ => viper.config (config.viper (config.New "app"))
      | inr cfg => cfg ∪ viper.config (config.viper (config.New "app"))
      end.
Proof.
  apply (read_from_file_uses_default_path quietWorld (config.New "app")
           (pflag.NewFlagSet "root")).
  - reflexivity.
  - intros f Hf. inversion Hf.
Defined.

(** ** The decode hook *)

Lemma cut_Some (s k v : string) :
  cutAtFirstEq s = Some (k, v) -> s = k ++ "=" ++ v /\ countEq k = 0.
Proof.
  revert k v. induction s as [|a s IH]; intros k v; cbn; [discriminate|].
  destruct (Ascii.eqb a "="%char) eqn:Ha.
  - intros [= <- <-]. apply Ascii.eqb_eq in Ha. subst a. split; reflexivity.
  - destruct (cutAtFirstEq s) as [[k0 v0]|]; [|discriminate].
    intros [= <- <-]. destruct (IH k0 v0 eq_refl) as [-> Hc].
    split; [reflexivity|]. cbn. rewrite Ha, Hc. reflexivity.
Qed.

Lemma append_cons (a : ascii) (k s : string) : String a k ++ s = String a (k ++ s).
Proof. reflexivity. Qed.

Lemma cut_render (k v : string) :
  countEq k = 0 -> cutAtFirstEq (render (k, v)) = Some (k, v).
Proof.
  unfold render. cbn [fst snd]. induction k as [|a k IH].
  - intros _. reflexivity.
  - rewrite append_cons. cbn [countEq cutAtFirstEq].
    destruct (Ascii.eqb a "="%char); [discriminate|].
    intros Hc. rewrite (IH Hc). reflexivity.
Qed.

(** X9: [SplitN(s, "=", 2)] never gives more than two pieces; two pieces
    joined by ['='] are the input again and the first of them holds no
    ['=']; a single piece is the input, which then holds no ['=']. *)
Theorem SplitN_pieces_rejoin (s : string) :
  match strings.SplitN_eq_2 s with
  | [p] => p = s /\ countEq s = 0
  | [p0; p1] => s = p0 ++ "=" ++ p1 /\ countEq p0 = 0
  | _ => False
  end.
Proof.
  rewrite SplitN_cut. destruct (cutAtFirstEq s) as [[k v]|] eqn:Hc.
  - apply cut_Some, Hc.
  - split; [reflexivity | apply cut_none_count, Hc].
Qed.

Lemma countEq_render kv : 0 < countEq (render kv).
Proof.
  destruct kv as [k v]. unfold render. cbn [fst snd].
  induction k as [|a k IH].
  - change (0 < S (countEq v)). lia.
  - rewrite append_cons. cbn [countEq]. lia.
Qed.

Lemma lastValue_render (l : list (string * string)) (k : string) :
  NoDup l.*1 ->
  Forall (fun kv => countEq (fst kv) = 0) l ->
  lastValue k (render <$> l) = (list_to_map l : gmap string string) !! k.
Proof.
  induction l as [|[k0 v0] r IH]; intros Hnd Hkeys; [reflexivity|].
  cbn [fmap list_fmap lastValue]. cbn in Hnd.
  apply NoDup_cons in Hnd as [Hnotin Hnd].
  apply Forall_cons in Hkeys as [Hk0 Hkeys]. cbn in Hk0.
  change (list_fmap _ _ render r) with (render <$> r).
  rewrite (IH Hnd Hkeys), (cut_render k0 v0 Hk0).
  change (list_to_map ((k0, v0) :: r) : gmap string string)
    with (<[k0 := v0]> (list_to_map r : gmap string string)).
  destruct (String.eqb k0 k) eqn:Hk.
  - apply String.eqb_eq in Hk. subst k0.
    rewrite lookup_insert_eq.
    rewrite (not_elem_of_list_to_map_1 r k Hnotin). reflexivity.
  - apply String.eqb_neq in Hk. rewrite lookup_insert_ne by exact Hk.
    destruct (list_to_map r !! k); reflexivity.
Qed.

(** X10: decoding is the inverse of rendering: for a map none of whose
    keys holds an ['='], the hook applied to the map's pairs written as
    [key=value], in any of the orders [map_to_list] may give, returns the
    map; the values may hold any bytes. *)
Theorem hook_inverts_render (m : gmap string string) :
  (forall k v, m !! k = Some v -> countEq k = 0) ->
  hooks.stringSliceToStringMapHookFunc stringSlice stringMap
    (AStrings (render <$> map_to_list m))
  = Ok (AStringMap m, None).
Proof.
  intros Hkeys. unfold hooks.stringSliceToStringMapHookFunc.
  rewrite notSliceToMap_spec. cbn [sliceOfStrings mapWithStringValues stringSlice
    stringMap reflect.kind reflect.basicKind].
  rewrite bool_decide_eq_true_2 by reflexivity. cbn [andb negb bindE].
  destruct (fillMap_ok (render <$> map_to_list m)) with (m := (∅ : gmap string string))
    as (m' & Hm' & Hlook).
  { apply Forall_fmap, Forall_forall. intros kv _. apply countEq_render. }
  rewrite Hm'. f_equal. f_equal. f_equal.
  apply map_eq. intros k. rewrite Hlook, lookup_empty.
  rewrite lastValue_render.
  - rewrite list_to_map_to_list. destruct (m !! k); reflexivity.
  - apply NoDup_fst_map_to_list.
  - apply Forall_forall. intros [k0 v0] Hin. cbn.
    apply elem_of_map_to_list in Hin. apply (Hkeys k0 v0 Hin).
Qed.

Lemma hook_inverts_render_witness :
  hooks.stringSliceToStringMapHookFunc stringSlice stringMap
    (AStrings (render <$> map_to_list
                 ({[ "region" := "eu"; "expr" := "a=b" ]} : gmap string string)))
  = Ok (AStringMap {[ "region" := "eu"; "expr" := "a=b" ]}, None).
Proof.
  apply (hook_inverts_render {[ "region" := "eu"; "expr" := "a=b" ]}).
  intros k v Hkv.
  destruct (decide (k = "region")) as [->|Hr]; [reflexivity|].
  destruct (decide (k = "expr")) as [->|He]; [reflexivity|].
  rewrite lookup_insert_ne in Hkv by congruence.
  rewrite lookup_singleton_ne in Hkv by congruence.
  discriminate Hkv.
Defined.

(** X11: with a slice of strings as source type and a map of string values
    as target type, data of any dynamic type but [[]string] makes the hook
    panic on its type assertion. *)
Theorem hook_panics_on_other_data (f t : reflect.Type_) (data : any) :
  sliceOfStrings f = true ->
  mapWithStringValues t = true ->
  (forall sl, data <> AStrings sl) ->
  panics (hooks.stringSliceToStringMapHookFunc f t data).
Proof.
  intros Hf Ht Hd. unfold hooks.stringSliceToStringMapHookFunc.
  rewrite notSliceToMap_spec, Hf, Ht. cbn [andb negb bindE].
  destruct data; try exact I. contradiction (Hd sl). reflexivity.
Qed.

Lemma hook_panics_on_other_data_witness :
  panics (hooks.stringSliceToStringMapHookFunc stringSlice stringMap ANil).
Proof.
  apply (hook_panics_on_other_data stringSlice stringMap ANil);
    [reflexivity | reflexivity | discriminate].
Defined.

Lemma lastValue_is_Some k sl :
  is_Some (lastValue k sl) <->
  exists v, render (k, v) ∈ sl /\ countEq k = 0.
Proof.
  induction sl as [|s r IH]; cbn [lastValue].
  - split; [intros [x Hx]; discriminate | intros (v & Hin & _); inversion Hin].
  - split.
    + destruct (lastValue k r) as [v|].
      * intros _. destruct IH as [IH _].
        destruct IH as (v' & Hin & Hk); [eexists; reflexivity|].
        exists v'. split; [right; exact Hin | exact Hk].
      * destruct (cutAtFirstEq s) as [[k' v']|] eqn:Hcut;
          [|intros [x Hx]; discriminate].
        destruct (String.eqb k' k) eqn:Hk; [|intros [x Hx]; discriminate].
        intros _. apply String.eqb_eq in Hk. subst k'.
        destruct (cut_Some _ _ _ Hcut) as [-> Hc].
        exists v'. split; [left | exact Hc].
    + intros (v & Hin & Hk). apply elem_of_cons in Hin as [<-|Hin].
      * destruct (lastValue k r); [eexists; reflexivity|].
        rewrite (cut_render k v Hk), String.eqb_refl. eexists; reflexivity.
      * destruct IH as [_ IH]. destruct IH as [x Hx]; [exists v; split; assumption|].
        rewrite Hx. eexists; reflexivity.
Qed.

Lemma fillMap_size sl :
  forall acc m,
    hooks.fillMap sl acc = (AStringMap m, None) -> size m <= size acc + length sl.
Proof.
  induction sl as [|s r IH]; intros acc m; cbn [hooks.fillMap length].
  - intros [= <-]. lia.
  - destruct (strings.SplitN_eq_2 s) as [|p0 [|p1 [|p2 ps]]]; try discriminate.
    intros H. apply IH in H.
    pose proof (map_size_insert p0 p1 acc) as Hs.
    destruct (acc !! p0); cbn in Hs; lia.
Qed.

(** X12: when the hook returns a map, every key of the map stands before
    the first ['='] of some element of the sequence, every such key is in
    the map, and the map has no more entries than the sequence has
    elements. *)
Theorem hook_keys_come_from_elements
    (f t : reflect.Type_) (sl : list string) (m : gmap string string) :
  sliceOfStrings f = true ->
  mapWithStringValues t = true ->
  hooks.stringSliceToStringMapHookFunc f t (AStrings sl) = Ok (AStringMap m, None) ->
  (forall k, is_Some (m !! k) <-> exists v, render (k, v) ∈ sl /\ countEq k = 0)
  /\ size m <= length sl.
Proof.
  intros Hf Ht. unfold hooks.stringSliceToStringMapHookFunc.
  rewrite notSliceToMap_spec, Hf, Ht. cbn [andb negb bindE].
  intros [= Hfill].
  split.
  - destruct (fillMap_error sl ∅) as [Herr _]. rewrite Hfill in Herr. cbn in Herr.
    assert (Hall : Forall (fun s => 0 < countEq s) sl).
    { apply firstWithoutEq_None. destruct (firstWithoutEq sl); [discriminate|reflexivity]. }
    destruct (fillMap_ok sl Hall ∅) as (m' & Hm' & Hlook).
    rewrite Hfill in Hm'. injection Hm' as <-.
    intros k. rewrite Hlook, lookup_empty, <- lastValue_is_Some.
    destruct (lastValue k sl); reflexivity.
  - pose proof (fillMap_size sl ∅ m Hfill) as Hs.
    rewrite map_size_empty in Hs. exact Hs.
Qed.

Lemma hook_keys_come_from_elements_witness :
  (forall k, is_Some (({[ "a" := "2" ]} : gmap string string) !! k) <->
             exists v, render (k, v) ∈ ["a=1"; "a=2"] /\ countEq k = 0)
  /\ size ({[ "a" := "2" ]} : gmap string string) <= length ["a=1"; "a=2"].
Proof.
  apply (hook_keys_come_from_elements stringSlice stringMap ["a=1"; "a=2"]);
    [reflexivity | reflexivity | vm_compute; reflexivity].
Defined.

(** ** New, the environment and the config file *)

Lemma ReadFromFile_keeps (w : World) (mgr : config.Manager) (fs : pflag.FlagSet) :
  let mgr' := snd (config.ReadFromFile w mgr fs) in
  config.name mgr' = config.name mgr /\
  config.flags mgr' = config.flags mgr /\
  viper.pflags (config.viper mgr') = viper.pflags (config.viper mgr) /\
  viper.envPrefix (config.viper mgr') = viper.envPrefix (config.viper mgr) /\
  viper.envKeyReplacer (config.viper mgr') = viper.envKeyReplacer (config.viper mgr) /\
  viper.allowEmptyEnv (config.viper mgr') = viper.allowEmptyEnv (config.viper mgr) /\
  viper.automaticEnvApplied (config.viper mgr')
    = viper.automaticEnvApplied (config.viper mgr).
Proof.
  destruct (String.eqb (fst (pflag.GetString fs "config")) "") eqn:Hp.
  - unfold config.ReadFromFile. rewrite Hp. cbn. repeat split.
  - apply String.eqb_neq in Hp. rewrite (ReadFromFile_eq w mgr fs Hp).
    unfold viper.SetConfigFile. apply String.eqb_neq in Hp. rewrite Hp.
    destruct (loadConfig w _); cbn; repeat split.
Qed.

(** X13: for a manager made by [New] and then given a config file by
    [ReadFromFile], a key whose environment variable is set resolves to
    the value of the variable, the empty string included, whatever the
    file holds for the key. *)
Theorem environment_beats_config_file
    (w : World) (owner : string) (fs : pflag.FlagSet) (key val : string) :
  environ w (viper.envVarOf (config.viper (config.New owner)) key) = Some val ->
  viper.Get w (config.viper (snd (config.ReadFromFile w (config.New owner) fs))) key
  = Some (AString val).
Proof.
  intros Henv.
  destruct (ReadFromFile_keeps w (config.New owner) fs)
    as (_ & _ & Hfl & Hpre & Hrep & Hall & Haut).
  unfold viper.Get, viper.find, viper.getEnv, viper.envName, viper.mergeWithEnvPrefix.
  rewrite Hfl, Hpre, Hrep, Hall, Haut.
  unfold viper.envVarOf, viper.envName, viper.mergeWithEnvPrefix in Henv.
  assert (Hnofl : viper.pflags (config.viper (config.New owner)) = ∅).
  { unfold config.New, viper.SetEnvPrefix, viper.SetConfigName.
    destruct (String.eqb owner ""); reflexivity. }
  assert (Hauto : viper.automaticEnvApplied (config.viper (config.New owner)) = true)
    by reflexivity.
  assert (Hallow : viper.allowEmptyEnv (config.viper (config.New owner)) = true).
  { unfold config.New, viper.SetEnvPrefix, viper.SetConfigName.
    destruct (String.eqb owner ""); reflexivity. }
  rewrite Hnofl, lookup_empty, Hauto, Henv, Hallow. reflexivity.
Qed.

Lemma environment_beats_config_file_witness :
  viper.Get
    (mkWorld (fun nm => if String.eqb nm "APP_LABELS" then Some "" else None)
       (fun _ => inr {[ "labels" := AStrings ["bad"] ]})
       hookDecode)
    (config.viper
       (snd (config.ReadFromFile
               (mkWorld (fun nm => if String.eqb nm "APP_LABELS" then Some "" else None)
                  (fun _ => inr {[ "labels" := AStrings ["bad"] ]})
                  hookDecode)
               (config.New "app")
               rootFlags)))
    "labels"
  = Some (AString "").
Proof.
  apply (environment_beats_config_file
           (mkWorld (fun nm => if String.eqb nm "APP_LABELS" then Some "" else None)
              (fun _ => inr {[ "labels" := AStrings ["bad"] ]})
              hookDecode)
           "app" rootFlags "labels" "").
  reflexivity.
Defined.

(** ** package assertions *)

(** X14: [Assert] returns false exactly when the condition is neither
    ["nil"] nor ["not-nil"]; it then has not looked at the value and has
    not failed the test: the test it returns with is the one it was
    given. *)
Theorem assert_returns_false_iff_unknown_condition
    (lib : assertions.Lib) (t t' : assertions.T) (condition : string)
    (actual : any) (expected : list any) :
  assertions.Assert lib t condition actual expected = assertions.Returns false t'
  <-> condition <> assertions.IsNil /\ condition <> assertions.IsNotNil /\ t' = t.
Proof.
  unfold assertions.Assert, assertions.assertNil, assertions.assertNotNil.
  destruct (String.eqb condition assertions.IsNil) eqn:H1.
  - apply String.eqb_eq in H1. split.
    + intros H. destruct (assertions.isNil lib actual); discriminate H.
    + intros [Hn _]. contradiction.
  - destruct (String.eqb condition assertions.IsNotNil) eqn:H2.
    + apply String.eqb_eq in H2. split.
      * intros H. destruct (assertions.isNil lib actual); discriminate H.
      * intros (_ & Hn & _). contradiction.
    + apply String.eqb_neq in H1, H2. split.
      * intros [= <-]. repeat split; assumption.
      * intros (_ & _ & ->). reflexivity.
Qed.

Lemma assert_returns_false_iff_unknown_condition_witness :
  assertions.Assert nilOnly (assertions.mkT false) "equal" (AInt 1) [AInt 2]
  = assertions.Returns false (assertions.mkT false).
Proof.
  apply (assert_returns_false_iff_unknown_condition nilOnly (assertions.mkT false)
           (assertions.mkT false) "equal" (AInt 1) [AInt 2]).
  repeat split; discriminate.
Defined.

(** X15: on a known condition [Assert] either returns true, with the test
    as it was, when the condition holds, or does not return at all: when
    the condition fails the test is marked failed and the process exits
    with status 1. *)
Theorem assert_known_condition_true_or_exit
    (lib : assertions.Lib) (t : assertions.T) (condition : string)
    (actual : any) (expected : list any) :
  condition = assertions.IsNil \/ condition = assertions.IsNotNil ->
  let holds :=
    if String.eqb condition assertions.IsNil then assertions.isNil lib actual
    else negb (assertions.isNil lib actual) in
  (holds = true ->
     assertions.Assert lib t condition actual expected = assertions.Returns true t)
  /\ (holds = false ->
      exists msg,
        assertions.Assert lib t condition actual expected
        = assertions.Exits 1 msg (assertions.mkT true)).
Proof.
  unfold assertions.Assert, assertions.assertNil, assertions.assertNotNil.
  intros [-> | ->]; cbn; destruct (assertions.isNil lib actual); cbn;
    (split; intros H; try discriminate H; try reflexivity; eexists; reflexivity).
Qed.

Lemma assert_known_condition_true_or_exit_witness :
  assertions.Assert nilOnly (assertions.mkT false) "nil" ANil []
    = assertions.Returns true (assertions.mkT false)
  /\ exists msg,
       assertions.Assert nilOnly (assertions.mkT false) "not-nil" ANil [AString "x"]
       = assertions.Exits 1 msg (assertions.mkT true).
Proof.
  split.
  - apply (assert_known_condition_true_or_exit nilOnly (assertions.mkT false)
             "nil" ANil []); [left|]; reflexivity.
  - apply (assert_known_condition_true_or_exit nilOnly (assertions.mkT false)
             "not-nil" ANil [AString "x"]); [right|]; reflexivity.
Defined.

(** ** package logger: fields *)

(** X16: [field] gives a field of a known type for a string and for an
    int and for nothing else: whenever it returns a field whose type is
    not the unknown type, the value was a string or an int and the field
    carries the key and the value. *)
Theorem field_known_only_for_string_and_int
    (key : string) (val : any) (f : zapcore.Field) :
  logger.field key val = Ok f ->
  zapcore.Type_ f <> zapcore.UnknownType ->
  (exists s, val = AString s /\
             f = zapcore.mkField key zapcore.StringType 0 s None) \/
  (exists z, val = AInt z /\
             f = zapcore.mkField key zapcore.Int64Type z "" None).
Proof.
  unfold logger.field. intros Hf Hty.
  destruct val as [|s|b|z|sl|m|t]; cbn in Hf; try discriminate Hf;
    try (injection Hf as <-; contradiction Hty; reflexivity).
  - injection Hf as <-. left. exists s. split; reflexivity.
  - injection Hf as <-. right. exists z. split; reflexivity.
  - destruct (reflect.kind t) eqn:Hk; cbn in Hf;
      try (injection Hf as <-; contradiction Hty; reflexivity);
      try discriminate Hf.
    destruct t as [[]| | | | | | | |]; cbn in Hf; try discriminate Hf;
      injection Hf as <-; contradiction Hty; reflexivity.
Qed.

Lemma field_known_only_for_string_and_int_witness :
  (exists s, AInt 7 = AString s /\
             zapcore.mkField "n" zapcore.Int64Type 7 "" None
             = zapcore.mkField "n" zapcore.StringType 0 s None) \/
  (exists z, AInt 7 = AInt z /\
             zapcore.mkField "n" zapcore.Int64Type 7 "" None
             = zapcore.mkField "n" zapcore.Int64Type z "" None).
Proof.
  apply (field_known_only_for_string_and_int "n" (AInt 7)
           (zapcore.mkField "n" zapcore.Int64Type 7 "" None));
    [reflexivity | discriminate].
Defined.

(** X17: [field] panics on every value of kind int64 (its case for
    [reflect.Int64] asserts [int]) and on nil. *)
Theorem field_panics_on_int64_and_nil (key : string) (val : any) :
  reflect.kind (typeOf val) = reflect.Int64 \/ val = ANil ->
  panics (logger.field key val).
Proof.
  intros [Hk| ->]; [|exact I].
  unfold logger.field. destruct val as [|s|b|z|sl|m|t]; try discriminate Hk.
  cbn in Hk. cbn [typeOf]. rewrite Hk. unfold logger.assertInt. exact I.
Qed.

Lemma field_panics_on_int64_and_nil_witness :
  panics (logger.field "n" (AOther (reflect.TBasic reflect.BInt64))).
Proof.
  apply (field_panics_on_int64_and_nil "n" (AOther (reflect.TBasic reflect.BInt64))).
  left. reflexivity.
Defined.

Lemma fieldsLoop_acc_pair a :
  (forall acc,
     logger.fieldsLoop a acc =
     let* x := mapE (fun kv => logger.field (fst kv) (snd kv)) (stringKeyed a) in
     Ok (acc ++ x)%list) /\
  (forall k acc,
     logger.fieldsLoop (k :: a) acc =
     let* x := mapE (fun kv => logger.field (fst kv) (snd kv)) (stringKeyed (k :: a)) in
     Ok (acc ++ x)%list).
Proof.
  induction a as [|v rest [IH1 IH2]].
  - split; intros; cbn; rewrite app_nil_r; reflexivity.
  - split; [intros acc; apply IH2|].
    intros k acc.
    destruct k; cbn [logger.fieldsLoop stringKeyed]; try apply IH1.
    cbn [mapE fst snd].
    destruct (logger.field s v) as [f|msg]; cbn [bindE]; [|reflexivity].
    rewrite IH1.
    destruct (mapE _ (stringKeyed rest)) as [x|msg]; cbn [bindE]; [|reflexivity].
    rewrite <- app_assoc. reflexivity.
Qed.

Lemma fieldsLoop_acc a acc :
  logger.fieldsLoop a acc =
  let* x := mapE (fun kv => logger.field (fst kv) (snd kv)) (stringKeyed a) in
  Ok (acc ++ x)%list.
Proof. apply fieldsLoop_acc_pair. Qed.

Lemma Fields_spec (a : list any) :
  logger.Fields a =
  mapE (fun kv => logger.field (fst kv) (snd kv)) (stringKeyed a).
Proof.
  unfold logger.Fields. rewrite fieldsLoop_acc.
  destruct (mapE _ (stringKeyed a)); reflexivity.
Qed.

(** X18: [Fields] is [field] applied, in order, to the pairs of arguments
    whose first member is a string; a pair with another first member is
    passed over without a look at its second member, and an argument
    left over at the end is ignored.  The first panic of [field] is the
    outcome. *)
Theorem Fields_are_string_keyed_pairs (a : list any) :
  logger.Fields a =
  mapE (fun kv => logger.field (fst kv) (snd kv)) (stringKeyed a).
Proof. apply Fields_spec. Qed.

Lemma stringKeyed_kvArgs l x :
  stringKeyed (kvArgs l) = l /\ stringKeyed (kvArgs l ++ [x]) = l.
Proof.
  induction l as [|[k v] r [IH1 IH2]]; [split; reflexivity|].
  change (kvArgs ((k, v) :: r)) with (AString k :: v :: kvArgs r).
  change ((AString k :: v :: kvArgs r) ++ [x])%list
    with (AString k :: v :: (kvArgs r ++ [x]))%list.
  cbn [stringKeyed]. rewrite IH1, IH2. split; reflexivity.
Qed.

(** X19: for keys with values that are strings or ints, [Fields] returns
    one field for each pair, in order, with the key and the value; an
    odd argument at the end changes nothing. *)
Theorem Fields_of_strings_and_ints (l : list (string * any)) (x : any) :
  Forall (fun kv => (exists s, snd kv = AString s) \/ (exists z, snd kv = AInt z)) l ->
  exists fs,
    logger.Fields (kvArgs l) = Ok fs /\
    logger.Fields (kvArgs l ++ [x]) = Ok fs /\
    Forall2
      (fun kv f =>
         zapcore.Key f = fst kv /\
         match snd kv with
         | AString s => zapcore.Type_ f = zapcore.StringType /\ zapcore.String_ f = s
         | AInt z => zapcore.Type_ f = zapcore.Int64Type /\ zapcore.Integer f = z
         | _ => False
         end)
      l fs.
Proof.
  intros Hl. rewrite !Fields_spec.
  destruct (stringKeyed_kvArgs l x) as [-> ->].
  induction Hl as [|[k v] r Hv _ IH].
  - exists []. repeat split. constructor.
  - destruct IH as (fs & Hfs & _ & Hall). cbn [mapE fst snd].
    cbn in Hv. destruct Hv as [[s ->]|[z ->]]; cbn; rewrite Hfs; cbn;
      eexists; (split; [reflexivity|]); (split; [reflexivity|]);
      constructor; try exact Hall; cbn; repeat split.
Qed.

Lemma Fields_of_strings_and_ints_witness :
  exists fs,
    logger.Fields (kvArgs [("test-key", AString "test-value"); ("test-other-key", AInt 1)])
      = Ok fs /\
    logger.Fields (kvArgs [("test-key", AString "test-value"); ("test-other-key", AInt 1)]
                     ++ [ABool true]) = Ok fs /\
    Forall2
      (fun kv f =>
         zapcore.Key f = fst kv /\
         match snd kv with
         | AString s => zapcore.Type_ f = zapcore.StringType /\ zapcore.String_ f = s
         | AInt z => zapcore.Type_ f = zapcore.Int64Type /\ zapcore.Integer f = z
         | _ => False
         end)
      [("test-key", AString "test-value"); ("test-other-key", AInt 1)] fs.
Proof.
  apply (Fields_of_strings_and_ints
           [("test-key", AString "test-value"); ("test-other-key", AInt 1)]
           (ABool true)).
  constructor; [left; eexists; reflexivity|].
  constructor; [right; eexists; reflexivity|]. constructor.
Defined.

(** ** Slices of fields *)

Lemma cells_alter f (h : slices.Heap) (i : nat) (t : slices.Slice) nx :
  slices.arr t = i ->
  slices.cells (slices.mkHeap (alter f i (slices.arrays h)) nx) t
  = match slices.arrays h !! i with
    | Some a => f a
    | None => []
    end.
Proof.
  intros <-. unfold slices.cells. cbn. rewrite lookup_alter_eq.
  destruct (slices.arrays h !! slices.arr t); reflexivity.
Qed.

Lemma placed_array (h : slices.Heap) (s : slices.Slice) :
  placed h s -> 0 < slices.cap s ->
  exists a, slices.arrays h !! slices.arr s = Some a /\ length a = slices.cap s.
Proof.
  intros (_ & Hlen & _) Hcap. unfold slices.cells in Hlen.
  destruct (slices.arrays h !! slices.arr s) as [a|]; cbn in Hlen.
  - exists a. split; [reflexivity | exact Hlen].
  - lia.
Qed.

Lemma placed_below (h : slices.Heap) (s : slices.Slice) :
  placed h s -> slices.arr s < slices.next h.
Proof. intros (_ & _ & H). exact H. Qed.

Lemma sane_alter f i (h : slices.Heap) :
  sane h -> sane (slices.mkHeap (alter f i (slices.arrays h)) (slices.next h)).
Proof.
  intros [Hpos Hfree]. split; [exact Hpos|]. intros j Hj. cbn.
  rewrite lookup_alter_None. apply Hfree, Hj.
Qed.

(** What [append] does to the slice it is given, and to the heap. *)
Lemma append_facts (rt : slices.Runtime) (s : slices.Slice)
    (xs : list zapcore.Field) (h : slices.Heap) :
  placed h s -> sane h ->
  slices.read (snd (slices.append rt s xs h)) (fst (slices.append rt s xs h))
    = (slices.read h s ++ xs)%list /\
  slices.read (snd (slices.append rt s xs h)) s = slices.read h s /\
  placed (snd (slices.append rt s xs h)) (fst (slices.append rt s xs h)) /\
  sane (snd (slices.append rt s xs h)).
Proof.
  intros Hp Hs. pose proof Hp as (Hle & Hlen & Hbelow).
  pose proof Hs as [Hpos Hfree].
  unfold slices.append.
  destruct (Nat.leb (slices.len s + length xs) (slices.cap s)) eqn:Hfit; cbn [fst snd].
  - apply Nat.leb_le in Hfit.
    split; [|split; [|split]]; [| | |apply sane_alter, Hs].
    + unfold slices.read. cbn [slices.len].
      rewrite (cells_alter _ h (slices.arr s)) by reflexivity.
      unfold slices.cells in *.
      destruct (slices.arrays h !! slices.arr s) as [a|]; cbn in *.
      * rewrite app_assoc, take_app_length'; [reflexivity|].
        rewrite length_app, length_take_le by lia. reflexivity.
      * destruct xs; cbn in *; [|lia].
        assert (slices.len s = 0) as -> by lia. reflexivity.
    + unfold slices.read.
      rewrite (cells_alter _ h (slices.arr s)) by reflexivity.
      unfold slices.cells in *.
      destruct (slices.arrays h !! slices.arr s) as [a|]; cbn in *; [|reflexivity].
      rewrite take_app_length' by (rewrite length_take_le; lia). reflexivity.
    + unfold placed. cbn [slices.len slices.cap slices.arr slices.next].
      split; [exact Hfit|]. split; [|exact Hbelow].
      rewrite (cells_alter _ h (slices.arr s)) by reflexivity.
      unfold slices.cells in *.
      destruct (slices.arrays h !! slices.arr s) as [a|]; cbn in *; [|exact Hlen].
      rewrite !length_app, length_take_le, length_drop by lia. lia.
  - apply Nat.leb_gt in Hfit.
    set (n := slices.len s + length xs) in *.
    set (c := Nat.max (slices.growCap rt (slices.cap s) n) n).
    assert (Hrl : length (slices.read h s) = slices.len s).
    { unfold slices.read. rewrite length_take_le; lia. }
    split; [|split; [|split]].
    + unfold slices.read at 1, slices.cells. cbn. rewrite lookup_insert_eq. cbn.
      rewrite app_assoc, take_app_length'; [reflexivity|].
      rewrite length_app, Hrl. reflexivity.
    + unfold slices.read, slices.cells. cbn.
      rewrite lookup_insert_ne by lia. reflexivity.
    + unfold placed, slices.cells. cbn. rewrite lookup_insert_eq. cbn.
      split; [lia|]. split; [|lia].
      rewrite !length_app, Hrl, length_replicate. lia.
    + split; [cbn; lia|]. intros i Hi. cbn in Hi |- *.
      rewrite lookup_insert_ne by lia. apply Hfree. lia.
Qed.

Lemma append_twice (rt : slices.Runtime) (s : slices.Slice)
    (f1 f2 : zapcore.Field) (h : slices.Heap) :
  placed h s -> sane h ->
  let r1 := slices.append rt s [f1] h in
  let r2 := slices.append rt s [f2] (snd r1) in
  slices.read (snd r2) (fst r1) =
  (slices.read h s ++ [if Nat.ltb (slices.len s) (slices.cap s) then f2 else f1])%list.
Proof.
  intros Hp Hs r1 r2. pose proof Hp as (Hle & Hlen & Hbelow).
  destruct (Nat.ltb (slices.len s) (slices.cap s)) eqn:Hspare.
  - apply Nat.ltb_lt in Hspare.
    destruct (placed_array h s Hp) as (a & Ha & Hla); [lia|].
    subst r1 r2. unfold slices.append. cbn [length].
    assert (Hfit : Nat.leb (slices.len s + 1) (slices.cap s) = true)
      by (apply Nat.leb_le; lia).
    rewrite !Hfit. cbn [fst snd]. rewrite ?Hfit. cbn [fst snd].
    unfold slices.read, slices.cells. cbn.
    rewrite !lookup_alter_eq, Ha. cbn.
    rewrite (take_app_length' (take (slices.len s) a))
      by (rewrite length_take_le; lia).
    rewrite cons_middle, app_assoc. apply take_app_length'.
    rewrite length_app, length_take_le by lia. reflexivity.
  - apply Nat.ltb_ge in Hspare.
    destruct (append_facts rt s [f1] h Hp Hs) as (Hr1 & _ & Hp1 & Hs1).
    fold r1 in Hr1, Hp1, Hs1. rewrite <- Hr1.
    subst r2. unfold slices.append at 1. cbn [length].
    assert (Hfit : Nat.leb (slices.len s + 1) (slices.cap s) = false)
      by (apply Nat.leb_gt; lia).
    rewrite Hfit. cbn [fst snd].
    assert (Hr1eq : r1 = (slices.mkSlice (slices.next h) (slices.len s + 1)
                            (Nat.max (slices.growCap rt (slices.cap s) (slices.len s + 1))
                               (slices.len s + 1)),
                          slices.mkHeap
                            (<[slices.next h :=
                                 (slices.read h s ++ [f1] ++
                                  replicate
                                    (Nat.max (slices.growCap rt (slices.cap s)
                                                (slices.len s + 1))
                                       (slices.len s + 1) - (slices.len s + 1))
                                    zapcore.zeroField)%list]> (slices.arrays h))
                            (S (slices.next h)))).
    { subst r1. unfold slices.append. cbn [length]. rewrite Hfit. reflexivity. }
    rewrite Hr1eq. cbn [fst snd]. unfold slices.read, slices.cells. cbn.
    rewrite lookup_insert_ne by lia. reflexivity.
Qed.



Lemma sane_grownHeap : sane grownHeap.
Proof.
  split; [cbn; lia|]. intros i Hi. cbn in Hi |- *.
  rewrite !lookup_insert_ne by lia. apply lookup_singleton_ne. lia.
Qed.

Lemma placed_grownLogger : placed grownHeap (logger.fields grownLogger).
Proof. split; [cbn; lia|]. split; [reflexivity | cbn; lia]. Qed.

(** The sample logger is what three calls of [WithField] make of the
    first logger. *)
Example grownLogger_from_API :
  (let* r1 := logger.WithField doubling firstLogger "a" (AString "1") slices.emptyHeap in
   let* r2 := logger.WithField doubling (fst r1) "b" (AString "2") (snd r1) in
   logger.WithField doubling (fst r2) "c" (AString "3") (snd r2))
  = Ok (grownLogger, grownHeap).
Proof. vm_compute. reflexivity. Qed.

(** ** package logger: loggers with fields *)

Lemma WithField_eq rt l key val h :
  logger.WithField rt l key val h =
  let* f := logger.field key val in Ok (logger.WithFields rt l [f] h).
Proof.
  unfold logger.WithField, logger.WithFields.
  destruct (logger.field key val) as [f|]; cbn [bindE]; [|reflexivity].
  destruct (slices.append rt (logger.fields l) [f] h). reflexivity.
Qed.

Lemma WithFields_parts rt l f h :
  logger.WithFields rt l f h =
  (mkLogger (logger.ctx l) (logger.logger_ l)
     (fst (slices.append rt (logger.fields l) f h)),
   snd (slices.append rt (logger.fields l) f h)).
Proof.
  unfold logger.WithFields.
  destruct (slices.append rt (logger.fields l) f h). reflexivity.
Qed.

(** X20: [WithFields] returns a logger with the same context and the same
    zap logger whose fields are those of the receiver followed by the new
    ones; the receiver still shows its own fields, neither more nor
    fewer. *)
Theorem WithFields_extends_and_keeps_receiver
    (rt : slices.Runtime) (l : Logger) (f : list zapcore.Field) (h : slices.Heap) :
  placed h (logger.fields l) -> sane h ->
  let l' := fst (logger.WithFields rt l f h) in
  let h' := snd (logger.WithFields rt l f h) in
  logger.ctx l' = logger.ctx l /\
  logger.logger_ l' = logger.logger_ l /\
  slices.read h' (logger.fields l') = (slices.read h (logger.fields l) ++ f)%list /\
  slices.read h' (logger.fields l) = slices.read h (logger.fields l) /\
  placed h' (logger.fields l') /\ sane h'.
Proof.
  intros Hp Hs. rewrite WithFields_parts. cbn [fst snd logger.ctx logger.logger_
    logger.fields].
  destruct (append_facts rt (logger.fields l) f h Hp Hs) as (H1 & H2 & H3 & H4).
  split; [reflexivity|]. split; [reflexivity|].
  split; [exact H1|]. split; [exact H2|]. split; [exact H3 | exact H4].
Qed.

Lemma WithFields_extends_and_keeps_receiver_witness :
  let l' := fst (logger.WithFields doubling grownLogger [fieldA] grownHeap) in
  let h' := snd (logger.WithFields doubling grownLogger [fieldA] grownHeap) in
  logger.ctx l' = logger.ctx grownLogger /\
  logger.logger_ l' = logger.logger_ grownLogger /\
  slices.read h' (logger.fields l')
    = (slices.read grownHeap (logger.fields grownLogger) ++ [fieldA])%list /\
  slices.read h' (logger.fields grownLogger)
    = slices.read grownHeap (logger.fields grownLogger) /\
  placed h' (logger.fields l') /\ sane h'.
Proof.
  apply (WithFields_extends_and_keeps_receiver doubling grownLogger [fieldA] grownHeap).
  - exact placed_grownLogger.
  - exact sane_grownHeap.
Defined.

(** X21: two loggers made from one receiver by [WithField] share the
    array of the receiver when it has room to spare: after the second
    call the first logger shows the field of the second call in the place
    of its own.  When the receiver has no room to spare the first logger
    keeps its field. *)
Theorem WithField_siblings_share_spare_room
    (rt : slices.Runtime) (l c1 c2 : Logger) (k1 k2 : string) (v1 v2 : any)
    (h h1 h2 : slices.Heap) :
  placed h (logger.fields l) -> sane h ->
  logger.WithField rt l k1 v1 h = Ok (c1, h1) ->
  logger.WithField rt l k2 v2 h1 = Ok (c2, h2) ->
  exists f1 f2,
    logger.field k1 v1 = Ok f1 /\ logger.field k2 v2 = Ok f2 /\
    slices.read h1 (logger.fields c1) = (slices.read h (logger.fields l) ++ [f1])%list /\
    slices.read h2 (logger.fields c2) = (slices.read h (logger.fields l) ++ [f2])%list /\
    slices.read h2 (logger.fields c1) =
      (slices.read h (logger.fields l) ++
       [if Nat.ltb (slices.len (logger.fields l)) (slices.cap (logger.fields l))
        then f2 else f1])%list.
Proof.
  intros Hp Hs. rewrite !WithField_eq.
  destruct (logger.field k1 v1) as [f1|] eqn:Hf1; cbn [bindE]; [|discriminate].
  destruct (logger.field k2 v2) as [f2|] eqn:Hf2; cbn [bindE]; [|discriminate].
  rewrite !WithFields_parts. intros [= <- <-] [= <- <-].
  exists f1, f2. cbn [logger.fields].
  destruct (append_facts rt (logger.fields l) [f1] h Hp Hs) as (H1 & H1' & Hp1 & Hs1).
  assert (Hpl1 : placed (snd (slices.append rt (logger.fields l) [f1] h))
                   (logger.fields l)).
  { destruct Hp as (Hle & Hlen & Hbelow). split; [exact Hle|].
    unfold slices.append.
    destruct (Nat.leb _ _) eqn:Hfit; cbn [snd].
    - split; [|exact Hbelow].
      rewrite (cells_alter _ h (slices.arr (logger.fields l))) by reflexivity.
      unfold slices.cells in Hlen.
      destruct (slices.arrays h !! slices.arr (logger.fields l)) as [a|];
        cbn in *; [|exact Hlen].
      apply Nat.leb_le in Hfit.
      rewrite length_app, length_take_le by lia. cbn [length].
      rewrite length_drop. lia.
    - split; [|cbn; lia]. unfold slices.cells in *. cbn.
      rewrite lookup_insert_ne by lia. exact Hlen. }
  destruct (append_facts rt (logger.fields l) [f2] _ Hpl1 Hs1) as (H2 & _ & _ & _).
  split; [reflexivity|]. split; [reflexivity|].
  split; [exact H1|]. split; [rewrite H2, H1'; reflexivity|].
  apply (append_twice rt (logger.fields l) f1 f2 h Hp Hs).
Qed.

Lemma WithField_siblings_share_spare_room_witness :
  exists c1 h1 c2 h2 f1 f2,
    logger.WithField doubling grownLogger "user" (AString "ann") grownHeap = Ok (c1, h1) /\
    logger.WithField doubling grownLogger "user" (AString "bob") h1 = Ok (c2, h2) /\
    logger.field "user" (AString "ann") = Ok f1 /\
    logger.field "user" (AString "bob") = Ok f2 /\
    slices.read h1 (logger.fields c1)
      = (slices.read grownHeap (logger.fields grownLogger) ++ [f1])%list /\
    slices.read h2 (logger.fields c2)
      = (slices.read grownHeap (logger.fields grownLogger) ++ [f2])%list /\
    slices.read h2 (logger.fields c1)
      = (slices.read grownHeap (logger.fields grownLogger) ++ [f2])%list.
Proof.
  destruct (logger.WithField doubling grownLogger "user" (AString "ann") grownHeap)
    as [[c1 h1]|] eqn:E1; [|vm_compute in E1; discriminate E1].
  destruct (logger.WithField doubling grownLogger "user" (AString "bob") h1)
    as [[c2 h2]|] eqn:E2.
  - destruct (WithField_siblings_share_spare_room doubling grownLogger c1 c2
                "user" "user" (AString "ann") (AString "bob") grownHeap h1 h2
                placed_grownLogger sane_grownHeap E1 E2)
      as (f1 & f2 & Hf1 & Hf2 & R1 & R2 & R3).
    exists c1, h1, c2, h2, f1, f2. repeat split; assumption.
  - exfalso. rewrite WithField_eq in E2. cbn in E2. discriminate E2.
Defined.

(** ** package logger: messages *)







(** ** package logger: contexts *)

(** X23: the logger put on a context by [NewContextWithLogger] is the one
    [NewLoggerFromContext] finds there, also after values under other
    keys were put on top; the values the parent held under other keys
    are still found. *)
Theorem logger_context_round_trip (c : Context) (l : Logger) :
  exists c',
    logger.NewContextWithLogger (Some c) (Some l) = Ok c' /\
    logger.NewLoggerFromContext (Some c') = Ok l /\
    (forall k v, k <> logger.loggerKey ->
       logger.NewLoggerFromContext (Some (valueCtx c' k v)) = Ok l) /\
    (forall k, k <> logger.loggerKey -> context.Value c' k = context.Value c k).
Proof.
  exists (valueCtx c logger.loggerKey (VLogger l)).
  split; [reflexivity|]. split; [|split].
  - unfold logger.NewLoggerFromContext. cbn. rewrite decide_True by reflexivity.
    reflexivity.
  - intros k v Hk. unfold logger.NewLoggerFromContext. cbn.
    rewrite decide_False by exact Hk. rewrite decide_True by reflexivity.
    reflexivity.
  - intros k Hk. cbn. rewrite decide_False by congruence. reflexivity.
Qed.

Lemma logger_context_round_trip_witness :
  exists c',
    logger.NewContextWithLogger
      (Some (valueCtx Background (stringKey "logger") (VAny (AString "mine"))))
      (Some firstLogger) = Ok c' /\
    logger.NewLoggerFromContext (Some c') = Ok firstLogger /\
    logger.NewLoggerFromContext (Some (valueCtx c' (otherKey 7) (VAny ANil)))
      = Ok firstLogger /\
    context.Value c' (stringKey "logger") = Some (VAny (AString "mine")).
Proof.
  destruct (logger_context_round_trip
              (valueCtx Background (stringKey "logger") (VAny (AString "mine")))
              firstLogger) as (c' & Hnew & Hget & Hother & Hkeep).
  exists c'. split; [exact Hnew|]. split; [exact Hget|]. split.
  - apply Hother. discriminate.
  - rewrite Hkeep by discriminate. reflexivity.
Defined.

Lemma Value_absent (c : Context) (k : CtxKey) :
  k ∉ keysOf c -> context.Value c k = None.
Proof.
  induction c as [|p IH k' v]; [reflexivity|]. cbn.
  intros Hnot. apply not_elem_of_cons in Hnot as [Hne Hnot].
  rewrite decide_False by congruence. apply IH, Hnot.
Qed.

(** X24: [NewLoggerFromContext] panics on a context on which no value was
    put under the logger key, whatever else it holds (a value under the
    plain string ["logger"] is not under the logger key), and on a nil
    context; [NewContextWithLogger] panics on a nil logger and on a nil
    parent. *)
Theorem logger_context_panics (c : Context) (p : option Context) (l : option Logger) :
  logger.loggerKey ∉ keysOf c ->
  panics (logger.NewLoggerFromContext (Some c)) /\
  panics (logger.NewLoggerFromContext None) /\
  panics (logger.NewContextWithLogger p None) /\
  panics (logger.NewContextWithLogger None l).
Proof.
  intros Hc. split; [|split; [exact I|split; [exact I|destruct l; exact I]]].
  unfold logger.NewLoggerFromContext. rewrite (Value_absent c _ Hc). exact I.
Qed.

Lemma logger_context_panics_witness :
  panics (logger.NewLoggerFromContext
            (Some (valueCtx Background (stringKey "logger") (VLogger firstLogger)))) /\
  panics (logger.NewLoggerFromContext None) /\
  panics (logger.NewContextWithLogger (Some Background) None) /\
  panics (logger.NewContextWithLogger None (Some firstLogger)).
Proof.
  apply (logger_context_panics
           (valueCtx Background (stringKey "logger") (VLogger firstLogger))
           (Some Background) (Some firstLogger)).
  cbn. intros H. apply elem_of_cons in H as [H|H]; [discriminate H | inversion H].
Defined.

(** X25: the handler wrapped by [Middleware] is served, on the same
    response writer, the same request with a context from which
    [NewLoggerFromContext] gives the logger of the middleware, the other
    values of the context being as they were; with a nil logger the
    wrapped handler panics on every request and the handler behind it is
    never served. *)
Theorem middleware_hands_logger_to_handler
    {W Resp : Type} (l : Logger) (next : http.Handler W Resp) (w : W)
    (r : http.Request) :
  (exists r',
      logger.Middleware (Some l) next w r = next w r' /\
      http.target r' = http.target r /\
      logger.NewLoggerFromContext (http.rctx r') = Ok l /\
      (forall k, k <> logger.loggerKey ->
         context.Value (http.Context_ r') k = context.Value (http.Context_ r) k))
  /\ logger.Middleware None next w r = Panic "Nil Logger".
Proof.
  split; [|reflexivity].
  exists (http.mkRequest
            (Some (valueCtx (http.Context_ r) logger.loggerKey (VLogger l)))
            (http.target r)).
  split; [reflexivity|]. split; [reflexivity|]. split.
  - unfold logger.NewLoggerFromContext. cbn. rewrite decide_True by reflexivity.
    reflexivity.
  - intros k Hk. cbn. rewrite decide_False by congruence. reflexivity.
Qed.

Lemma middleware_hands_logger_to_handler_witness :
  logger.Middleware (Some grownLogger) (whoHandler grownHeap) tt
    (http.mkRequest None "/who") = Ok "a"
  /\ logger.Middleware None (whoHandler grownHeap) tt (http.mkRequest None "/who")
     = Panic "Nil Logger".
Proof.
  destruct (middleware_hands_logger_to_handler grownLogger (whoHandler grownHeap) tt
              (http.mkRequest None "/who")) as [(r' & Hserve & _ & Hfind & _) Hnil].
  split; [|exact Hnil].
  rewrite Hserve. unfold whoHandler. rewrite Hfind. reflexivity.
Defined.


(** ** package logger: New *)

Lemma New_eq (sinks : option error) (c : option Context) (debug : bool)
    (reg : zap.Registry) :
  let ctor := match reg !! "custom" with
              | Some c0 => c0
              | None => fun _ => logger.encoderConfig debug
              end in
  let reg' := match reg !! "custom" with
              | Some _ => reg
              | None => <["custom" := fun _ => logger.encoderConfig debug]> reg
              end in
  logger.New sinks c debug reg =
  match sinks with
  | Some e => ((None, Some e), reg')
  | None =>
      ((Some (mkLogger c
                (zap.mkLogger
                   (if debug then zapcore.DebugLevel else zapcore.InfoLevel)
                   (ctor zap.NewProductionEncoderConfig) debug debug [])
                slices.makeEmpty), None), reg')
  end.
Proof.
  unfold logger.New, zap.RegisterEncoder, zap.Build, zap.Registry in *.
  destruct (reg !! "custom") as [c0|] eqn:Hreg.
  - destruct debug; cbn -[lookup insert];
      destruct (reg !! _) as [c1|] eqn:Hreg'; try discriminate Hreg;
      injection Hreg as ->; destruct sinks; reflexivity.
  - destruct debug; cbn -[lookup insert]; rewrite lookup_insert_eq;
      destruct sinks; reflexivity.
Qed.

(** X26: the only error [New] returns is that of opening the outputs;
    without it [New] returns a logger with the context it was given, no
    fields, the debug level and the caller note when [debug] is set and
    the info level without them when it is not. *)
Theorem New_fails_only_on_sinks
    (sinks : option error) (c : option Context) (debug : bool) (reg : zap.Registry) :
  snd (fst (logger.New sinks c debug reg)) = sinks /\
  (sinks <> None -> fst (fst (logger.New sinks c debug reg)) = None) /\
  (sinks = None ->
   exists l,
     fst (fst (logger.New sinks c debug reg)) = Some l /\
     logger.ctx l = c /\
     logger.fields l = slices.makeEmpty /\
     zap.level (logger.logger_ l)
       = (if debug then zapcore.DebugLevel else zapcore.InfoLevel) /\
     zap.addCaller (logger.logger_ l) = debug /\
     zap.addStack (logger.logger_ l) = debug).
Proof.
  rewrite New_eq. destruct sinks as [e|]; cbn.
  - split; [reflexivity|]. split; [reflexivity | discriminate].
  - split; [reflexivity|]. split; [intros H; contradiction H; reflexivity|].
    intros _. eexists. repeat split.
Qed.

Lemma New_fails_only_on_sinks_witness :
  fst (fst (logger.New (Some "open /dev/stderr: permission denied") (Some Background)
              true zap.initialRegistry)) = None /\
  exists l,
    fst (fst (logger.New None (Some Background) true zap.initialRegistry)) = Some l /\
    logger.ctx l = Some Background /\
    logger.fields l = slices.makeEmpty /\
    zap.level (logger.logger_ l) = zapcore.DebugLevel /\
    zap.addCaller (logger.logger_ l) = true /\
    zap.addStack (logger.logger_ l) = true.
Proof.
  split.
  - apply (New_fails_only_on_sinks (Some "open /dev/stderr: permission denied")
             (Some Background) true zap.initialRegistry). discriminate.
  - apply (New_fails_only_on_sinks None (Some Background) true zap.initialRegistry).
    reflexivity.
Defined.

(** X27: the encoder of every logger of a process is the one of the first
    call of [New]: the second call cannot register its own under the name
    that is taken, and its logger encodes with the configuration of the
    first call, so a debug logger made after a logger without debug
    notes the caller but encodes no caller key. *)
Theorem New_keeps_first_encoder
    (c1 c2 : option Context) (d1 d2 : bool) (reg : zap.Registry) :
  reg !! "custom" = None ->
  exists l1 l2 reg1,
    logger.New None c1 d1 reg = ((Some l1, None), reg1) /\
    logger.New None c2 d2 reg1 = ((Some l2, None), reg1) /\
    zap.encoder (logger.logger_ l1) = logger.encoderConfig d1 /\
    zap.encoder (logger.logger_ l2) = logger.encoderConfig d1 /\
    zap.addCaller (logger.logger_ l2) = d2 /\
    zapcore.CallerKey (zap.encoder (logger.logger_ l2))
      = (if d1 then "caller" else "").
Proof.
  intros Hreg. rewrite New_eq. unfold zap.Registry in *. rewrite !Hreg.
  cbv beta iota zeta.
  eexists _, _, _. split; [reflexivity|].
  rewrite New_eq. unfold zap.Registry in *. rewrite !lookup_insert_eq.
  cbv beta iota zeta.
  split; [reflexivity|]. cbn.
  repeat split;
    (destruct (reg !! _) as [c0|] eqn:E; [|reflexivity];
     first [discriminate Hreg | discriminate (eq_trans (eq_sym E) Hreg)]).
Qed.

Lemma New_keeps_first_encoder_witness :
  exists l1 l2 reg1,
    logger.New None (Some Background) false zap.initialRegistry = ((Some l1, None), reg1) /\
    logger.New None (Some Background) true reg1 = ((Some l2, None), reg1) /\
    zap.encoder (logger.logger_ l1) = logger.encoderConfig false /\
    zap.encoder (logger.logger_ l2) = logger.encoderConfig false /\
    zap.addCaller (logger.logger_ l2) = true /\
    zapcore.CallerKey (zap.encoder (logger.logger_ l2)) = "".
Proof.
  apply (New_keeps_first_encoder (Some Background) (Some Background) false true
           zap.initialRegistry).
  vm_compute. reflexivity.
Defined.
